(** * CGO proposal workflow (workflow.py): model and verified properties

    A shallow embedding of [workflow.py]: the service catalog and the
    pain-point table, the recommendation engine, the deal URL parser and the
    orchestrator [run_workflow] with its HubSpot and Claude calls; and of
    the link extraction of [handler.py].

    Modelling conventions.
    - A Python [str] is a [string] of 8-bit characters; the development
      covers ASCII text, on which [str.lower] maps [A-Z] to [a-z] and
      [\d] matches [0-9].
    - A Python [set] of skus is a [gset string], a [dict] keyed by sku a
      [gmap string _]; the two module-level tables keep their source order
      as lists.
    - Prices and totals are Python integers, here [Z]. *)

From Stdlib Require Import ZArith Lia Ascii String.
From stdpp Require Import base option list strings gmap pretty.

Set Warnings "-register-all,-clear-no-such-hyp".

Open Scope Z_scope.
Open Scope string_scope.

(** ** Python strings *)

Module Py.

(** [c.lower()] for one ASCII character. *)
Definition lower_char (c : ascii) : ascii :=
  let n := nat_of_ascii c in
  if ((65 <=? n) && (n <=? 90))%nat then ascii_of_nat (n + 32) else c.

(** [s.lower()] *)
Fixpoint lower (s : string) : string :=
  match s with
  | EmptyString => EmptyString
  | String c s' => String (lower_char c) (lower s')
  end.

(** [s.startswith(p)] *)
Fixpoint startswith (p s : string) : bool :=
  match p, s with
  | EmptyString, _ => true
  | String _ _, EmptyString => false
  | String a p', String b s' => Ascii.eqb a b && startswith p' s'
  end.

(** [sub in s] for two strings: [sub] occurs in [s] at some offset. *)
Fixpoint contains (s sub : string) : bool :=
  startswith sub s ||
  match s with
  | EmptyString => false
  | String _ s' => contains s' sub
  end.

(** [c.isspace()] on ASCII: tab, line feed, vertical tab, form feed, carriage
    return, the four separators 0x1c-0x1f, and space. *)
Definition is_space (c : ascii) : bool :=
  let n := nat_of_ascii c in
  ((9 <=? n) && (n <=? 13) || (28 <=? n) && (n <=? 32))%nat.

Fixpoint lstrip (s : string) : string :=
  match s with
  | EmptyString => EmptyString
  | String c s' => if is_space c then lstrip s' else s
  end.

Fixpoint rstrip (s : string) : string :=
  match s with
  | EmptyString => EmptyString
  | String c s' =>
      match rstrip s' with
      | EmptyString => if is_space c then EmptyString else String c EmptyString
      | r => String c r
      end
  end.

(** [s.strip()] *)
Definition strip (s : string) : string := rstrip (lstrip s).

(** [\d] on ASCII. *)
Definition is_digit (c : ascii) : bool :=
  let n := nat_of_ascii c in ((48 <=? n) && (n <=? 57))%nat.

(** *** Exceptions and results *)

Inductive exn :=
| HTTPError (msg : string)   (* requests.HTTPError, raised by raise_for_status *)
| Timeout                    (* requests.Timeout *)
| ConnectionError            (* requests.ConnectionError *)
| JSONDecodeError            (* r.json() on a body that is not JSON *)
| KeyError (k : string)
| IndexError
| TypeError
| AttributeError.

Inductive result (A : Type) :=
| Ret (a : A)
| Raise (e : exn).
Arguments Ret {A} a.
Arguments Raise {A} e.

Definition rbind {A B} (r : result A) (k : A -> result B) : result B :=
  match r with
  | Ret a => k a
  | Raise e => Raise e
  end.

(** *** JSON values, as [r.json()] returns them

    A dict is given by its items (keys are distinct in a parsed response;
    lookup takes the first binding). Numbers are integers: floats do not
    occur in the fields the workflow reads. *)
Inductive json :=
| JNull
| JBool (b : bool)
| JInt (z : Z)
| JStr (s : string)
| JArr (l : list json)
| JObj (items : list (string * json)).

Fixpoint lookup_key (k : string) (items : list (string * json)) : option json :=
  match items with
  | [] => None
  | (k', v) :: rest => if String.eqb k k' then Some v else lookup_key k rest
  end.

(** [bool(j)] *)
Definition truthy (j : json) : bool :=
  match j with
  | JNull => false
  | JBool b => b
  | JInt z => negb (z =? 0)%Z
  | JStr s => negb (String.eqb s "")
  | JArr l => match l with [] => false | _ => true end
  | JObj items => match items with [] => false | _ => true end
  end.

(** [a or b] *)
Definition or_ (a b : json) : json := if truthy a then a else b.

(** [d.get(k, default)]: only a dict has [.get]. *)
Definition get (d : json) (k : string) (default : json) : result json :=
  match d with
  | JObj items => Ret (from_option id default (lookup_key k items))
  | _ => Raise AttributeError
  end.

(** [d[k]] for a string key [k]. *)
Definition getitem (d : json) (k : string) : result json :=
  match d with
  | JObj items =>
      match lookup_key k items with
      | Some v => Ret v
      | None => Raise (KeyError k)
      end
  | _ => Raise TypeError
  end.

(** [for x in j]: a list yields its elements, a dict its keys, a string its
    characters; nothing else is iterable. *)
Definition iter (j : json) : result (list json) :=
  match j with
  | JArr l => Ret l
  | JObj items => Ret ((fun kv => JStr (fst kv)) <$> items)
  | JStr s => Ret ((fun c => JStr (String c EmptyString)) <$> list_ascii_of_string s)
  | _ => Raise TypeError
  end.

(** [needle in j] for a string [needle]: substring of a string, element of
    a list, key of a dict. *)
Definition contains_in (j : json) (needle : string) : result bool :=
  match j with
  | JStr s => Ret (contains s needle)
  | JArr l =>
      Ret (existsb (fun x => match x with
                             | JStr s => String.eqb s needle
                             | _ => false
                             end) l)
  | JObj items => Ret (bool_decide (is_Some (lookup_key needle items)))
  | _ => Raise TypeError
  end.

(** [str(j)], as an f-string interpolates it. Exact on strings, integers,
    booleans and [None]; inside a list or dict a string is quoted without
    escapes. *)
Fixpoint repr (j : json) : string :=
  match j with
  | JNull => "None"
  | JBool true => "True"
  | JBool false => "False"
  | JInt z => pretty z
  | JStr s => "'" +:+ s +:+ "'"
  | JArr l =>
      "[" +:+
      (fix go (l : list json) : string :=
         match l with
         | [] => ""
         | [x] => repr x
         | x :: rest => repr x +:+ ", " +:+ go rest
         end) l +:+ "]"
  | JObj items =>
      "{" +:+
      (fix go (l : list (string * json)) : string :=
         match l with
         | [] => ""
         | [(k, v)] => "'" +:+ k +:+ "': " +:+ repr v
         | (k, v) :: rest => "'" +:+ k +:+ "': " +:+ repr v +:+ ", " +:+ go rest
         end) items +:+ "}"
  end.

Definition str (j : json) : string :=
  match j with
  | JStr s => s
  | _ => repr j
  end.

End Py.

Import Py.

(** ** The two module-level tables *)

Record Service := mkService {
  sku : string;
  name : string;
  price : Z;
  description : string
}.

#[global] Instance Service_eq_dec : EqDecision Service.
Proof. solve_decision. Defined.

Definition SERVICES : list Service := [
  mkService "CGO-MKTOPS" "Marketing Operations Consulting" 3000
    "Lead scoring, segmentation, campaign orchestration, ABM strategy";
  mkService "CGO-SALESOPS" "Sales Operations Consulting" 3000
    "Sales enablement, pipeline optimization, lead scoring";
  mkService "CGO-CRM" "CRM Management" 2000
    "Weekly hotfixes, data quality monitoring, ad-hoc reporting";
  mkService "CGO-DATA" "Ongoing Data Enrichment" 1500
    "1 custom signal + ICP monthly enrichment";
  mkService "CGO-EMAIL" "Email Outreach Automation" 1500
    "Cold email infrastructure and campaign execution";
  mkService "CGO-LINKEDIN" "LinkedIn Outreach Automation" 1500
    "LinkedIn prospecting automation";
  mkService "CGO-BUNDLE" "CGO Bundle (Full)" 12000
    "All services included"
].

(** [PAIN_POINT_MAP.items()], in insertion order. *)
Definition PAIN_POINT_MAP : list (string * list string) := [
  ("CGO-CRM",
   ["hubspot underutilized"; "crm"; "data silo"; "logging"; "data quality";
    "duplicates"; "messy data"; "hubspot help"; "custom properties";
    "reporting"; "dashboards"]);
  ("CGO-MKTOPS",
   ["marketing automation"; "lead scoring"; "campaigns"; "abm";
    "marketing attribution"; "visitor identification"; "website traffic";
    "de-anonymize"; "lead qualification"; "mql"; "nurture"]);
  ("CGO-SALESOPS",
   ["sales enablement"; "pipeline"; "sequences"; "sales process";
    "forecasting"; "sales team"; "quota"; "opportunity"; "deal velocity";
    "win rate"; "sales handoff"]);
  ("CGO-DATA",
   ["data enrichment"; "target market data"; "contacts"; "validation";
    "lead lists"; "icp data"; "firmographic"; "technographic";
    "buying signals"; "intent data"; "clay"]);
  ("CGO-EMAIL",
   ["email campaign"; "cold email"; "deliverability"; "outreach";
    "email sequences"; "prospecting email"; "spam"; "email warmup";
    "open rates"; "reply rates"]);
  ("CGO-LINKEDIN",
   ["linkedin campaign"; "linkedin outreach"; "social selling";
    "linkedin prospecting"; "connection requests"; "inmail";
    "linkedin automation"; "social"])
].

(** ** Recommendation engine *)

(** The inner loop of [_recommend_from_transcript]: every indicator found in
    the lowered text adds 2 to the score. *)
Definition indicator_score (indicators : list string) (text_lower : string) : Z :=
  fold_left
    (fun score ind => if Py.contains text_lower ind then score + 2 else score)
    indicators 0.

(** The outer loop body: skip the bundle sku, record a score of at least 2. *)
Definition score_sku (text_lower : string) (scores : gmap string Z)
    (item : string * list string) : gmap string Z :=
  let '(k, indicators) := item in
  if String.eqb k "CGO-BUNDLE" then scores
  else
    let score := indicator_score indicators text_lower in
    if (2 <=? score)%Z then <[k := score]> scores else scores.

Definition _recommend_from_transcript (text : string) : gset string :=
  let text_lower := Py.lower text in
  let scores := fold_left (score_sku text_lower) PAIN_POINT_MAP ∅ in
  dom scores.

(** The accumulation loop of [recommend_services]:
    [all_skus |= _recommend_from_transcript(t)] for every transcript. *)
Definition all_skus (transcripts : list string) : gset string :=
  fold_left (fun acc t => acc ∪ _recommend_from_transcript t) transcripts ∅.

Definition sum_prices (l : list Service) : Z :=
  fold_right Z.add 0 (price <$> l).

Definition recommend_services (transcripts : list string) : list Service * Z :=
  let skus := all_skus transcripts in
  if (4 <=? size skus)%nat
  then (filter (fun s => sku s = "CGO-BUNDLE") SERVICES, 12000)
  else
    let recommended := filter (fun s => sku s ∈ skus) SERVICES in
    (recommended, sum_prices recommended).

(** ** Deal URL parser *)

(** The maximal run of digits at the head of [s] (a greedy [\d+]), and the
    rest. *)
Fixpoint span_digits (s : string) : string * string :=
  match s with
  | EmptyString => (EmptyString, EmptyString)
  | String c s' =>
      if is_digit c
      then let '(ds, rest) := span_digits s' in (String c ds, rest)
      else (EmptyString, s)
  end.

(** [s] with the literal [p] removed from its head, if it starts with it. *)
Fixpoint drop_literal (p s : string) : option string :=
  match p, s with
  | EmptyString, _ => Some s
  | String _ _, EmptyString => None
  | String a p', String b s' => if Ascii.eqb a b then drop_literal p' s' else None
  end.

(** [re.match(r"contacts/(\d+)/record/0-3/(\d+)", s)]: the pattern anchored
    at the head of [s]. Each [\d+] is followed by a non-digit or by the end of
    the pattern, so the greedy run is the only way to match. *)
Definition match_deal_path (s : string) : option (string * string) :=
  match drop_literal "contacts/" s with
  | None => None
  | Some s1 =>
      let '(portal, s2) := span_digits s1 in
      if String.eqb portal "" then None
      else
        match drop_literal "/record/0-3/" s2 with
        | None => None
        | Some s3 =>
            let '(deal, _) := span_digits s3 in
            if String.eqb deal "" then None else Some (portal, deal)
        end
  end.

(** [re.search]: the leftmost offset at which the pattern matches. *)
Fixpoint parse_deal_url (url : string) : option (string * string) :=
  match match_deal_path url with
  | Some r => Some r
  | None =>
      match url with
      | EmptyString => None
      | String _ url' => parse_deal_url url'
      end
  end.

(** ** Upstream services and the effect monad

    A request is its method and URL; headers, query parameters and JSON
    bodies are left out. The upstream's answer to the [n]-th call of a run
    is [up n req]: what [requests.get/post/put], [raise_for_status] and
    [r.json()] together produce, a parsed body or an exception. Indexing by
    call number lets the answer depend on everything sent so far. *)

Inductive method := GET | POST | PUT.

#[global] Instance method_eq_dec : EqDecision method.
Proof. solve_decision. Defined.

Record request := mkRequest { meth : method; url : string }.

Definition upstream := nat -> request -> result json.

(** A computation reads and advances the number of calls made so far and
    returns a value or raises. *)
Definition M (A : Type) : Type := nat -> result A * nat.

Definition ret {A} (a : A) : M A := fun n => (Ret a, n).

Definition raise {A} (e : exn) : M A := fun n => (Raise e, n).

Definition bind {A B} (m : M A) (k : A -> M B) : M B :=
  fun n =>
    match m n with
    | (Ret a, n') => k a n'
    | (Raise e, n') => (Raise e, n')
    end.

Definition lift {A} (r : result A) : M A := fun n => (r, n).

(** [try: x = body / except requests.HTTPError as e: handler(e)], then [k x]
    after the [try] statement. Only [HTTPError] is caught. *)
Definition try_except_HTTPError {A B}
    (body : M A) (handler : string -> M B) (k : A -> M B) : M B :=
  fun n =>
    match body n with
    | (Ret a, n') => k a n'
    | (Raise (HTTPError msg), n') => handler msg n'
    | (Raise e, n') => (Raise e, n')
    end.

Notation "x <- m ;; k" := (bind m (fun x => k))
  (at level 100, m at next level, right associativity).
Notation "x <~ r ;; k" := (rbind r (fun x => k))
  (at level 100, r at next level, right associativity).

Definition call (up : upstream) (req : request) : M json :=
  fun n => (up n req, S n).

(** ** The workflow *)

Record Env := mkEnv {
  HUBSPOT_API_KEY : option string;
  HUBSPOT_PORTAL_ID : option string;
  ANTHROPIC_API_KEY : option string
}.

(** [not v] for the value of [os.environ.get]: unset or empty. *)
Definition unset (v : option string) : bool :=
  match v with
  | None => true
  | Some s => String.eqb s ""
  end.

(** The dict [run_workflow] returns. *)
Inductive WorkflowResult :=
| Success (quote_url : string) (company_name : json) (total_monthly : Z)
          (services : list string)
| Failure (error : string).

Definition MSG_HUBSPOT_CONFIG : string :=
  "HUBSPOT_API_KEY and HUBSPOT_PORTAL_ID must be set".
Definition MSG_ANTHROPIC_CONFIG : string :=
  "ANTHROPIC_API_KEY must be set for AI generation".
Definition MSG_INVALID_URL : string :=
  "Invalid HubSpot deal URL. Use: https://app.hubspot.com/contacts/PORTAL_ID/record/0-3/DEAL_ID".
Definition MSG_PORTAL_MISMATCH (url_portal portal_id : string) : string :=
  "Deal URL portal " +:+ url_portal +:+
  " does not match configured HUBSPOT_PORTAL_ID " +:+ portal_id.
Definition MSG_NO_TRANSCRIPTS : string :=
  "No Fathom meeting summaries found for this deal. Please ensure discovery calls are recorded with Fathom and linked to the deal, or add discovery notes manually.".

Section Workflow.

Context (up : upstream).

Definition _hubspot_get (api_key path : string) : M json :=
  call up (mkRequest GET ("https://api.hubapi.com" +:+ path)).

Definition _hubspot_post (api_key path : string) : M json :=
  call up (mkRequest POST ("https://api.hubapi.com" +:+ path)).

Definition _hubspot_put (api_key path : string) : M unit :=
  _ <- call up (mkRequest PUT ("https://api.hubapi.com" +:+ path)) ;; ret tt.

Definition fetch_deal (api_key deal_id : string) : M json :=
  _hubspot_get api_key ("/crm/v3/objects/deals/" +:+ deal_id).

(** The loop shared by [fetch_companies] and [fetch_contacts], which differ
    in the path and the requested properties only: fetch each id, append
    the record, pass on [HTTPError]. *)
Fixpoint fetch_each (api_key path : string) (ids : list json)
    (records : list json) : M (list json) :=
  match ids with
  | [] => ret records
  | cid :: rest =>
      try_except_HTTPError
        (_hubspot_get api_key (path +:+ str cid))
        (fun _ => fetch_each api_key path rest records)
        (fun data => fetch_each api_key path rest (records ++ [data])%list)
  end.

Definition fetch_companies (api_key : string) (company_ids : list json)
    : M (list json) :=
  fetch_each api_key "/crm/v3/objects/companies/" company_ids [].

Definition fetch_contacts (api_key : string) (contact_ids : list json)
    : M (list json) :=
  fetch_each api_key "/crm/v3/objects/contacts/" contact_ids [].

(** [(meeting.get("properties") or {}).get("hs_internal_meeting_notes") or ""] *)
Definition meeting_notes (meeting : json) : result json :=
  props <~ get meeting "properties" JNull ;;
  notes <~ get (or_ props (JObj [])) "hs_internal_meeting_notes" JNull ;;
  Ret (or_ notes (JStr "")).

(** ["AI Meeting Summary" in notes or "Generated by Fathom" in notes] *)
Definition has_fathom_marker (notes : json) : result bool :=
  b <~ contains_in notes "AI Meeting Summary" ;;
  if b : bool then Ret true else contains_in notes "Generated by Fathom".

(** The loop over the meeting associations. *)
Fixpoint fetch_meetings (api_key : string) (results : list json)
    (transcripts : list json) : M (list json) :=
  match results with
  | [] => ret transcripts
  | r :: rest =>
      meeting_id <- lift (get r "toObjectId" JNull) ;;
      if negb (truthy meeting_id)
      then fetch_meetings api_key rest transcripts
      else
        try_except_HTTPError
          (meeting <- _hubspot_get api_key
                        ("/crm/v3/objects/meetings/" +:+ str meeting_id) ;;
           notes <- lift (meeting_notes meeting) ;;
           marked <- lift (has_fathom_marker notes) ;;
           ret (if marked : bool then (transcripts ++ [notes])%list else transcripts))
          (fun _ => fetch_meetings api_key rest transcripts)
          (fun transcripts' => fetch_meetings api_key rest transcripts')
  end.

Definition fetch_fathom_transcripts (api_key deal_id : string)
    : M (list json) :=
  try_except_HTTPError
    (assoc <- _hubspot_get api_key
                ("/crm/v4/objects/deals/" +:+ deal_id +:+ "/associations/meetings") ;;
     lift (get assoc "results" (JArr [])))
    (fun _ => ret [])
    (fun results =>
       rs <- lift (iter results) ;;
       fetch_meetings api_key rs []).

(** The loop of [fetch_products]. A sku that is not a string is stored under
    a key no catalog sku equals, or is unhashable. *)
Fixpoint index_products (ps : list json) (sku_to_id : gmap string json)
    : result (gmap string json) :=
  match ps with
  | [] => Ret sku_to_id
  | p :: rest =>
      props <~ get p "properties" JNull ;;
      k <~ get (or_ props (JObj [])) "hs_sku" JNull ;;
      if truthy k
      then
        pid <~ getitem p "id" ;;
        match k with
        | JStr s => index_products rest (<[s := pid]> sku_to_id)
        | JArr _ | JObj _ => Raise TypeError
        | _ => index_products rest sku_to_id
        end
      else index_products rest sku_to_id
  end.

Definition fetch_products (api_key : string) : M (gmap string json) :=
  data <- _hubspot_get api_key "/crm/v3/objects/products" ;;
  lift (results <~ get data "results" (JArr []) ;;
        ps <~ iter results ;;
        index_products ps ∅).

(** The loop of [_call_claude] over the content blocks. *)
Fixpoint join_text_blocks (blocks : list json) (text : string) : result string :=
  match blocks with
  | [] => Ret text
  | b :: rest =>
      ty <~ get b "type" JNull ;;
      match ty with
      | JStr "text" =>
          t <~ get b "text" (JStr "") ;;
          match t with
          | JStr s => join_text_blocks rest (text +:+ s)
          | _ => Raise TypeError
          end
      | _ => join_text_blocks rest text
      end
  end.

Definition _call_claude (api_key : string) : M string :=
  data <- call up (mkRequest POST "https://api.anthropic.com/v1/messages") ;;
  lift (blocks <~ get data "content" (JArr []) ;;
        bs <~ iter blocks ;;
        text <~ join_text_blocks bs "" ;;
        Ret (strip text)).

(** The two generators build their prompt from the arguments, which cannot
    raise, and send it in the request body. *)
Definition generate_90_day_preview (anthropic_key : string)
    (transcripts : list string) (company_name : json) : M string :=
  _call_claude anthropic_key.

Definition generate_executive_summary (anthropic_key : string)
    (transcripts : list string) (company_name : json)
    (services : list Service) (total : Z) : M string :=
  _call_claude anthropic_key.

(** The loop of [create_quote_and_line_items] over the services. *)
Fixpoint create_line_items (api_key : string) (quote_id : json)
    (sku_to_id : gmap string json) (services : list Service) : M unit :=
  match services with
  | [] => ret tt
  | svc :: rest =>
      let prod_id := from_option id JNull (sku_to_id !! sku svc) in
      if negb (truthy prod_id)
      then create_line_items api_key quote_id sku_to_id rest
      else
        line_item <- _hubspot_post api_key "/crm/v3/objects/line_items" ;;
        li_id <- lift (getitem line_item "id") ;;
        _ <- _hubspot_put api_key
               ("/crm/v3/objects/quotes/" +:+ str quote_id +:+
                "/associations/line_items/" +:+ str li_id +:+ "/67") ;;
        create_line_items api_key quote_id sku_to_id rest
  end.

Definition create_quote_and_line_items (api_key portal_id deal_id : string)
    (company_name : json) (services : list Service)
    (executive_summary_html ninety_day_preview_html : string) : M string :=
  sku_to_id <- fetch_products api_key ;;
  quote <- _hubspot_post api_key "/crm/v3/objects/quotes" ;;
  quote_id <- lift (getitem quote "id") ;;
  _ <- create_line_items api_key quote_id sku_to_id services ;;
  ret ("https://app.hubspot.com/contacts/" +:+ portal_id +:+
       "/record/0-115/" +:+ str quote_id).

(** [[r["id"] for r in d.get(kind, {}).get("results", [])]] *)
Definition association_ids (associations : json) (kind : string)
    : result (list json) :=
  a <~ get associations kind (JObj []) ;;
  results <~ get a "results" (JArr []) ;;
  rs <~ iter results ;;
  foldr (fun r acc => i <~ getitem r "id" ;; l <~ acc ;; Ret (i :: l)) (Ret []) rs.

(** [companies[0]["properties"]["name"] if companies else deal_name] *)
Definition display_name (companies : list json) (deal_name : json) : result json :=
  match companies with
  | [] => Ret deal_name
  | c :: _ => props <~ getitem c "properties" ;; getitem props "name"
  end.

(** The transcripts as the [list[str]] that [recommend_services] lowers:
    [t.lower()] on anything but a string raises [AttributeError]. *)
Fixpoint as_texts (transcripts : list json) : result (list string) :=
  match transcripts with
  | [] => Ret []
  | JStr s :: rest => l <~ as_texts rest ;; Ret (s :: l)
  | _ :: _ => Raise AttributeError
  end.

(** [run_workflow] is embedded in blocks that follow its phases. *)

(** Lines 313-321: read the deal response, fetch companies and contacts,
    choose the display name. *)
Definition deal_context (api_key : string) (deal_resp : json) : M json :=
  deal_props <- lift (get deal_resp "properties" (JObj [])) ;;
  deal_name <- lift (get deal_props "dealname" (JStr "Unknown Deal")) ;;
  associations <- lift (get deal_resp "associations" (JObj [])) ;;
  company_ids <- lift (association_ids associations "companies") ;;
  contact_ids <- lift (association_ids associations "contacts") ;;
  companies <- fetch_companies api_key company_ids ;;
  contacts <- fetch_contacts api_key contact_ids ;;
  lift (display_name companies deal_name).

(** Lines 330-332: the recommendation, or [[SERVICES[0]], 3000] when it is
    empty. *)
Definition select_services (texts : list string) : result (list Service * Z) :=
  let '(services, total) := recommend_services texts in
  match services with
  | [] =>
      match SERVICES !! 0%nat with
      | Some s0 => Ret ([s0], 3000)
      | None => Raise IndexError
      end
  | _ :: _ => Ret (services, total)
  end.

(** Lines 340-354: assemble the quote and build the result. *)
Definition assemble (api_key portal_id deal_id : string) (company_name : json)
    (services : list Service) (total : Z) (exec_summary preview : string)
    : M WorkflowResult :=
  try_except_HTTPError
    (create_quote_and_line_items api_key portal_id deal_id company_name
       services exec_summary preview)
    (fun e => ret (Failure ("HubSpot error creating quote: " +:+ e)))
    (fun quote_url =>
       ret (Success quote_url company_name total (name <$> services))).

(** Lines 334-354: generate the two narratives, then assemble. *)
Definition deliver (api_key portal_id anthropic_key deal_id : string)
    (company_name : json) (texts : list string)
    (services : list Service) (total : Z) : M WorkflowResult :=
  try_except_HTTPError
    (exec_summary <- generate_executive_summary anthropic_key texts
                       company_name services total ;;
     preview <- generate_90_day_preview anthropic_key texts company_name ;;
     ret (exec_summary, preview))
    (fun e => ret (Failure ("Claude API error: " +:+ e)))
    (fun narrative =>
       assemble api_key portal_id deal_id company_name services total
         (fst narrative) (snd narrative)).

(** Lines 324-354: from the fetched transcripts to the result. *)
Definition propose (api_key portal_id anthropic_key deal_id : string)
    (company_name : json) (transcripts : list json) : M WorkflowResult :=
  match transcripts with
  | [] => ret (Failure MSG_NO_TRANSCRIPTS)
  | _ :: _ =>
      texts <- lift (as_texts transcripts) ;;
      selection <- lift (select_services texts) ;;
      deliver api_key portal_id anthropic_key deal_id company_name texts
        (fst selection) (snd selection)
  end.

Definition run_workflow (env : Env) (deal_url : string) : M WorkflowResult :=
  if unset (HUBSPOT_API_KEY env) || unset (HUBSPOT_PORTAL_ID env)
  then ret (Failure MSG_HUBSPOT_CONFIG)
  else if unset (ANTHROPIC_API_KEY env)
  then ret (Failure MSG_ANTHROPIC_CONFIG)
  else
    let api_key := default "" (HUBSPOT_API_KEY env) in
    let portal_id := default "" (HUBSPOT_PORTAL_ID env) in
    let anthropic_key := default "" (ANTHROPIC_API_KEY env) in
    match parse_deal_url deal_url with
    | None => ret (Failure MSG_INVALID_URL)
    | Some (url_portal, deal_id) =>
        if negb (String.eqb url_portal portal_id)
        then ret (Failure (MSG_PORTAL_MISMATCH url_portal portal_id))
        else
          try_except_HTTPError (fetch_deal api_key deal_id)
            (fun e => ret (Failure ("HubSpot API error: " +:+ e)))
            (fun deal_resp =>
               company_name <- deal_context api_key deal_resp ;;
               transcripts <- fetch_fathom_transcripts api_key deal_id ;;
               propose api_key portal_id anthropic_key deal_id company_name
                 transcripts)
    end.

End Workflow.

(** ** Vocabulary of the properties *)

(** The number of indicators of a sku that the transcript hits. *)
Definition hit_count (indicators : list string) (text : string) : nat :=
  length (filter (fun ind => contains (lower text) ind = true) indicators).

(** [PAIN_POINT_MAP[k]] *)
Definition indicators_of (k : string) : list string :=
  from_option (fun found => snd (snd found)) []
    (list_find (fun item => fst item = k) PAIN_POINT_MAP).

Definition BUNDLE : Service :=
  mkService "CGO-BUNDLE" "CGO Bundle (Full)" 12000 "All services included".
Definition MKTOPS : Service :=
  mkService "CGO-MKTOPS" "Marketing Operations Consulting" 3000
    "Lead scoring, segmentation, campaign orchestration, ABM strategy".
Definition SALESOPS : Service :=
  mkService "CGO-SALESOPS" "Sales Operations Consulting" 3000
    "Sales enablement, pipeline optimization, lead scoring".
Definition CRM : Service :=
  mkService "CGO-CRM" "CRM Management" 2000
    "Weekly hotfixes, data quality monitoring, ad-hoc reporting".

(** The error taxonomy of the specification, read off the message of a
    failure result: every return site of [run_workflow] has its own text. *)
Inductive classification :=
| ConfigurationError
| ValidationError
| PreconditionFailed
| UpstreamError.

Definition classify (error : string) : classification :=
  if startswith "HUBSPOT_API_KEY and HUBSPOT_PORTAL_ID must be set" error
     || startswith "ANTHROPIC_API_KEY must be set" error
  then ConfigurationError
  else if startswith "Invalid HubSpot deal URL" error
          || startswith "Deal URL portal " error
  then ValidationError
  else if startswith "No Fathom meeting summaries found" error
  then PreconditionFailed
  else UpstreamError.

(** All three credentials are set. *)
Definition configured (env : Env) (api_key portal_id anthropic_key : string) : Prop :=
  env = mkEnv (Some api_key) (Some portal_id) (Some anthropic_key) /\
  api_key <> "" /\ portal_id <> "" /\ anthropic_key <> "".

(** The run started at call [n] has passed the checks, fetched the deal and
    its context, and stands before the transcript fetch at call [n2]. *)
Definition reaches_transcripts (up : upstream) (env : Env) (deal_url : string)
    (n : nat) (api_key portal_id anthropic_key deal_id : string)
    (company_name : json) (n2 : nat) : Prop :=
  configured env api_key portal_id anthropic_key /\
  parse_deal_url deal_url = Some (portal_id, deal_id) /\
  exists deal_resp n1,
    fetch_deal up api_key deal_id n = (Ret deal_resp, n1) /\
    deal_context up api_key deal_resp n1 = (Ret company_name, n2).

(** The two tolerant fetchers, by the kind of record they fetch. *)
Inductive record_kind := Companies | Contacts.

Definition record_path (kind : record_kind) : string :=
  match kind with
  | Companies => "/crm/v3/objects/companies/"
  | Contacts => "/crm/v3/objects/contacts/"
  end.

Definition fetch_records (up : upstream) (api_key : string) (kind : record_kind)
    : list json -> M (list json) :=
  match kind with
  | Companies => fetch_companies up api_key
  | Contacts => fetch_contacts up api_key
  end.

(** Exceptions raised by the Python code itself on an ill-shaped value. *)
Definition python_error (e : exn) : Prop :=
  match e with
  | KeyError _ | IndexError | TypeError | AttributeError => True
  | _ => False
  end.

(** A pure Python step raises nothing but a [python_error]. *)
Definition pure_ok {A} (r : result A) : Prop :=
  forall e, r = Raise e -> python_error e.

Definition is_HTTPError (e : exn) : Prop :=
  match e with
  | HTTPError _ => True
  | _ => False
  end.

(** An exception that the code raised on an ill-shaped value, or that some
    upstream call raised. *)
Definition raised_by (up : upstream) (e : exn) : Prop :=
  python_error e \/ exists k req, up k req = Raise e.

(** Every exception out of [m] is [raised_by] the upstream or the code. *)
Definition raw {A} (up : upstream) (m : M A) : Prop :=
  forall n e n', m n = (Raise e, n') -> raised_by up e.

(** As [raw], and no [HTTPError] gets out. *)
Definition clean {A} (up : upstream) (m : M A) : Prop :=
  forall n e n', m n = (Raise e, n') -> raised_by up e /\ ~ is_HTTPError e.


(** A service gets a line item when its sku resolves to a truthy product id. *)
Definition billable (sku_to_id : gmap string json) (svc : Service) : bool :=
  truthy (from_option id JNull (sku_to_id !! sku svc)).

(** The assembly started at call [n] ends the run at call [k] with the
    failure result that reports [msg]. *)
Definition assembly_failed (up : upstream) (api_key portal_id deal_id : string)
    (company_name : json) (services : list Service) (total : Z)
    (exec_summary preview msg : string) (n k : nat) : Prop :=
  assemble up api_key portal_id deal_id company_name services total
    exec_summary preview n
  = (Ret (Failure ("HubSpot error creating quote: " +:+ msg)), k).

(** The transcript hits at least two CRM indicators and at least two
    sales-pipeline indicators, and no indicator of any other sku. *)
Definition crm_and_sales_pain_only (text : string) : Prop :=
  (2 <= hit_count (indicators_of "CGO-CRM") text)%nat /\
  (2 <= hit_count (indicators_of "CGO-SALESOPS") text)%nat /\
  Forall (fun item => fst item = "CGO-CRM" \/ fst item = "CGO-SALESOPS" \/
                      hit_count (snd item) text = 0%nat) PAIN_POINT_MAP.

(** The requests of the workflow. *)
Definition hubspot (m : method) (path : string) : request :=
  mkRequest m ("https://api.hubapi.com" +:+ path).

(** ** Example data *)

(** An upstream that answers by method and URL, and with 404 otherwise. *)
Definition routed (routes : list (request * result json)) : upstream :=
  fun _ req =>
    from_option (fun found => snd (snd found))
      (Raise (HTTPError "404 Client Error"))
      (list_find (fun route =>
                    meth (fst route) = meth req /\ url (fst route) = url req)
                 routes).

Definition example_env : Env := mkEnv (Some "pat-na1") (Some "123") (Some "sk-ant").

Definition example_url : string :=
  "see https://app.hubspot.com/contacts/123/record/0-3/456 please".

(** A deal with one company and two contacts. *)
Definition example_deal : json :=
  JObj [("id", JStr "456");
        ("properties", JObj [("dealname", JStr "Acme renewal")]);
        ("associations",
         JObj [("companies", JObj [("results", JArr [JObj [("id", JStr "c1")]])]);
               ("contacts",
                JObj [("results",
                       JArr [JObj [("id", JStr "p1")]; JObj [("id", JStr "p2")]])])])].

Definition example_meeting (notes : string) : json :=
  JObj [("id", JStr "m");
        ("properties", JObj [("hs_internal_meeting_notes", JStr notes)])].

Definition example_notes_1 : string :=
  "AI Meeting Summary: the CRM is full of duplicates; Pipeline reviews miss quota.".

Definition example_notes_2 : string :=
  "Generated by Fathom. Reporting is manual, CRM adoption is low; forecasting and pipeline hygiene are weak.".

Definition example_claude_reply : json :=
  JObj [("content", JArr [JObj [("type", JStr "text"); ("text", JStr " <h3>Plan</h3> ")]])].

Definition example_products : json :=
  JObj [("results",
         JArr [JObj [("id", JStr "9001"); ("properties", JObj [("hs_sku", JStr "CGO-CRM")])];
               JObj [("id", JStr "9002"); ("properties", JObj [("hs_sku", JStr "CGO-SALESOPS")])];
               JObj [("id", JStr "9003"); ("properties", JObj [("hs_sku", JStr "CGO-MKTOPS")])]])].

(** The deal, its company, the first contact (the second is missing), and
    nothing else. *)
Definition example_context_routes : list (request * result json) :=
  [(hubspot GET "/crm/v3/objects/deals/456", Ret example_deal);
   (hubspot GET "/crm/v3/objects/companies/c1",
    Ret (JObj [("id", JStr "c1"); ("properties", JObj [("name", JStr "Acme")])]));
   (hubspot GET "/crm/v3/objects/contacts/p1", Ret (JObj [("id", JStr "p1")]))].

(** Two meetings with the given notes. *)
Definition example_meeting_routes (notes1 notes2 : string)
    : list (request * result json) :=
  [(hubspot GET "/crm/v4/objects/deals/456/associations/meetings",
    Ret (JObj [("results", JArr [JObj [("toObjectId", JInt 71)];
                                 JObj [("toObjectId", JInt 72)]])]));
   (hubspot GET "/crm/v3/objects/meetings/71", Ret (example_meeting notes1));
   (hubspot GET "/crm/v3/objects/meetings/72", Ret (example_meeting notes2))].

Definition example_claude_routes : list (request * result json) :=
  [(mkRequest POST "https://api.anthropic.com/v1/messages", Ret example_claude_reply)].

(** The product catalog, quote creation, line-item creation and its
    association. *)
Definition example_quote_routes : list (request * result json) :=
  [(hubspot GET "/crm/v3/objects/products", Ret example_products);
   (hubspot POST "/crm/v3/objects/quotes", Ret (JObj [("id", JStr "777")]));
   (hubspot POST "/crm/v3/objects/line_items", Ret (JObj [("id", JStr "55")]));
   (hubspot PUT "/crm/v3/objects/quotes/777/associations/line_items/55/67", Ret JNull)].

(** An upstream on which the whole run succeeds. *)
Definition example_upstream : upstream :=
  routed (example_context_routes
          ++ example_meeting_routes example_notes_1 example_notes_2
          ++ example_claude_routes ++ example_quote_routes)%list.

(** The same upstream with some routes overridden. *)
Definition example_upstream_with (overrides : list (request * result json))
    : upstream :=
  routed (overrides ++ example_context_routes
          ++ example_meeting_routes example_notes_1 example_notes_2
          ++ example_claude_routes ++ example_quote_routes)%list.


(** The product catalog is down; line items cannot be created; the
    association of a line item to its quote is refused. *)
Definition products_down : upstream :=
  example_upstream_with
    [(hubspot GET "/crm/v3/objects/products", Raise (HTTPError "503 Server Error"))].

Definition line_items_down : upstream :=
  example_upstream_with
    [(hubspot POST "/crm/v3/objects/line_items", Raise (HTTPError "500 Server Error"))].

Definition association_refused : upstream :=
  example_upstream_with
    [(hubspot PUT "/crm/v3/objects/quotes/777/associations/line_items/55/67",
      Raise (HTTPError "403 Client Error"))].

(** Two meetings whose summaries touch no pain point. *)
Definition quiet_upstream : upstream :=
  routed (example_context_routes
          ++ example_meeting_routes
               "AI Meeting Summary: we talked about the weather."
               "Generated by Fathom. A short call."
          ++ example_claude_routes ++ example_quote_routes)%list.

(** The listing of the deal's meetings does not answer in time; the second
    contact does not answer in time. *)
Definition listing_times_out : upstream :=
  example_upstream_with
    [(hubspot GET "/crm/v4/objects/deals/456/associations/meetings", Raise Timeout)].

Definition contact_times_out : upstream :=
  example_upstream_with
    [(hubspot GET "/crm/v3/objects/contacts/p2", Raise Timeout)].

(** ** The link extraction of handler.py *)

(** [re.match(r"https://app\.hubspot\.com/contacts/\d+/record/0-3/\d+", s)]
    anchored at the head of [s], returning [m.group(0)]: the host literal
    followed by the deal path that [match_deal_path] reads. *)
Definition match_deal_link (s : string) : option string :=
  match drop_literal "https://app.hubspot.com/" s with
  | None => None
  | Some s1 =>
      match match_deal_path s1 with
      | None => None
      | Some (portal, deal) =>
          Some ("https://app.hubspot.com/contacts/" +:+ portal +:+
                "/record/0-3/" +:+ deal)
      end
  end.

(** [re.search] of that pattern: the leftmost offset at which it matches. *)
Fixpoint search_deal_link (text : string) : option string :=
  match match_deal_link text with
  | Some u => Some u
  | None =>
      match text with
      | EmptyString => None
      | String _ text' => search_deal_link text'
      end
  end.

(** [m.group(0) if m else (text.strip() if text.strip() else None)] *)
Definition parse_deal_url_from_text (text : string) : option string :=
  match search_deal_link text with
  | Some u => Some u
  | None => if String.eqb (strip text) "" then None else Some (strip text)
  end.

(** ** Further vocabulary *)

(** A string of decimal digits. *)
Fixpoint all_digits (s : string) : bool :=
  match s with
  | EmptyString => true
  | String c s' => is_digit c && all_digits s'
  end.

Definition starts_with_digit (s : string) : bool :=
  match s with
  | EmptyString => false
  | String c _ => is_digit c
  end.

(** A string of whitespace. *)
Fixpoint all_space (s : string) : bool :=
  match s with
  | EmptyString => true
  | String c s' => is_space c && all_space s'
  end.

Definition starts_with_space (s : string) : bool :=
  match s with
  | EmptyString => false
  | String c _ => is_space c
  end.

Fixpoint ends_with_space (s : string) : bool :=
  match s with
  | EmptyString => false
  | String c EmptyString => is_space c
  | String _ s' => ends_with_space s'
  end.

(** The path that [parse_deal_url] looks for. *)
Definition deal_path (portal deal : string) : string :=
  "contacts/" +:+ portal +:+ "/record/0-3/" +:+ deal.

(** [ty == "text"] *)
Definition is_text (ty : json) : bool :=
  match ty with
  | JStr s => String.eqb s "text"
  | _ => false
  end.

(** The text that [_call_claude] assembles from the content blocks: the
    [text] fields of the blocks of type [text], in order. *)
Fixpoint text_of_blocks (blocks : list json) : string :=
  match blocks with
  | [] => ""
  | b :: rest =>
      match get b "type" JNull, get b "text" (JStr "") with
      | Ret ty, Ret (JStr s) =>
          if is_text ty then s +:+ text_of_blocks rest else text_of_blocks rest
      | _, _ => text_of_blocks rest
      end
  end.

(** The records that the upstream answers with when the ids are fetched one
    by one from call [n] on. *)
Fixpoint answered (up : upstream) (path : string) (n : nat) (ids : list json)
    : list json :=
  match ids with
  | [] => []
  | cid :: rest =>
      match up n (hubspot GET (path +:+ str cid)) with
      | Ret d => d :: answered up path (S n) rest
      | Raise _ => answered up path (S n) rest
      end
  end.

(** [(p.get("properties") or {}).get("hs_sku")] *)
Definition product_sku (p : json) : result json :=
  props <~ get p "properties" JNull ;;
  get (or_ props (JObj [])) "hs_sku" JNull.

(** The selected services that get a line item. *)
Definition billed (sku_to_id : gmap string json) (services : list Service)
    : list Service :=
  filter (fun svc => billable sku_to_id svc = true) services.

(** The line item of the [j]-th billed service was created by the call
    [k + 2j] and associated to the quote by the call after it. *)
Definition line_item_created (up : upstream) (quote_id : json) (k j : nat) : Prop :=
  exists line_item li_id r,
    up (k + 2 * j)%nat (hubspot POST "/crm/v3/objects/line_items") = Ret line_item /\
    getitem line_item "id" = Ret li_id /\
    up (k + 2 * j + 1)%nat
       (hubspot PUT ("/crm/v3/objects/quotes/" +:+ str quote_id +:+
                     "/associations/line_items/" +:+ str li_id +:+ "/67"))
    = Ret r.

(** A computation never lowers the call count. *)
Definition advances {A} (m : M A) : Prop :=
  forall n out n', m n = (out, n') -> (n <= n')%nat.

(** The three prefixes of the upstream failure messages. *)
Definition upstream_stages : list string :=
  ["HubSpot API error: "; "Claude API error: "; "HubSpot error creating quote: "].

(** The deal link that the handler looks for. *)
Definition deal_link (portal deal : string) : string :=
  "https://app.hubspot.com/" +:+ deal_path portal deal.

(** A non-empty run of digits. *)
Definition is_id (s : string) : Prop := all_digits s = true /\ s <> "".

(** The notes carry one of the two Fathom markers. *)
Definition marked (notes : json) : Prop := has_fathom_marker notes = Ret true.

(** * Properties *)

(** ** Strings: substrings and case folding *)

Lemma append_nil_l (s : string) : "" +:+ s = s.
Proof. reflexivity. Qed.

Lemma append_cons (a : ascii) (s1 s2 : string) :
  String a s1 +:+ s2 = String a (s1 +:+ s2).
Proof. reflexivity. Qed.

Lemma append_assoc (s1 s2 s3 : string) :
  (s1 +:+ s2) +:+ s3 = s1 +:+ (s2 +:+ s3).
Proof.
  induction s1 as [|a s1 IH]; [reflexivity|].
  rewrite !append_cons. by rewrite IH.
Qed.

Lemma startswith_spec (p s : string) :
  startswith p s = true <-> exists post, s = p +:+ post.
Proof.
  revert s. induction p as [|a p IH]; intros s; cbn [startswith].
  - split; [intros _; by exists s | done].
  - destruct s as [|b s].
    + split; [done | intros [post H]; rewrite append_cons in H; discriminate].
    + rewrite andb_true_iff, Ascii.eqb_eq, IH. split.
      * intros [-> [post ->]]. by exists post.
      * intros [post H]. rewrite append_cons in H. injection H as -> ->. eauto.
Qed.

(** [sub in s] holds exactly when [s] splits around an occurrence of [sub]. *)
Lemma contains_spec (s sub : string) :
  contains s sub = true <-> exists pre post, s = pre +:+ sub +:+ post.
Proof.
  induction s as [|c s IH]; cbn [contains]; rewrite orb_true_iff, startswith_spec.
  - split.
    + intros [[post H] | ?]; [|done]. by exists "", post.
    + intros (pre & post & H). left. destruct pre as [|a pre]; [|discriminate].
      by exists post.
  - rewrite IH. split.
    + intros [[post H] | (pre & post & ->)].
      * by exists "", post.
      * by exists (String c pre), post.
    + intros (pre & post & H). destruct pre as [|a pre].
      * left. by exists post.
      * right. rewrite append_cons in H. injection H as _ ->. by exists pre, post.
Qed.

Lemma lower_app (s1 s2 : string) : lower (s1 +:+ s2) = lower s1 +:+ lower s2.
Proof.
  induction s1 as [|a s1 IH]; [reflexivity|].
  rewrite append_cons. cbn [lower]. by rewrite IH, append_cons.
Qed.

(** A split of the lowered text comes from a split of the text. *)
Lemma lower_split (t a b : string) :
  lower t = a +:+ b -> exists t1 t2, t = t1 +:+ t2 /\ lower t1 = a /\ lower t2 = b.
Proof.
  revert t. induction a as [|c a IH]; intros t H.
  - by exists "", t.
  - destruct t as [|d t]; [discriminate|].
    cbn [lower] in H. rewrite append_cons in H. injection H as Hc Ht.
    destruct (IH _ Ht) as (t1 & t2 & -> & <- & <-).
    exists (String d t1), t2. cbn [lower]. by rewrite Hc.
Qed.

(** Matching an indicator against the lowered text is matching it against
    the text up to case: some substring of the text lowers to it. *)
Lemma contains_lower_spec (text ind : string) :
  contains (lower text) ind = true <->
  exists pre u post, text = pre +:+ u +:+ post /\ lower u = ind.
Proof.
  rewrite contains_spec. split.
  - intros (a & b & H).
    destruct (lower_split _ _ _ H) as (pre & r & -> & _ & Hr).
    destruct (lower_split _ _ _ Hr) as (u & post & -> & Hu & _).
    by exists pre, u, post.
  - intros (pre & u & post & -> & <-).
    exists (lower pre), (lower post). by rewrite !lower_app.
Qed.

Lemma lower_char_idemp (c : ascii) : lower_char (lower_char c) = lower_char c.
Proof. by destruct c as [[] [] [] [] [] [] [] []]. Qed.

Lemma lower_idemp (s : string) : lower (lower s) = lower s.
Proof.
  induction s as [|c s IH]; [done|]. cbn [lower]. by rewrite lower_char_idemp, IH.
Qed.

(** ** The recommendation engine *)

Lemma indicator_score_acc (inds : list string) (tl : string) (acc : Z) :
  fold_left (fun score ind => if contains tl ind then score + 2 else score) inds acc
  = acc + 2 * Z.of_nat (length (filter (fun ind => contains tl ind = true) inds)).
Proof.
  revert acc. induction inds as [|i inds IH]; intros acc; cbn [fold_left].
  - rewrite filter_nil. cbn. lia.
  - rewrite IH, filter_cons. destruct (contains tl i) eqn:E.
    + rewrite decide_True by done. cbn [length]. lia.
    + rewrite decide_False by done. lia.
Qed.

Lemma indicator_score_hits (inds : list string) (text : string) :
  indicator_score inds (lower text) = 2 * Z.of_nat (hit_count inds text).
Proof. unfold indicator_score, hit_count. by rewrite indicator_score_acc. Qed.

Lemma score_sku_dom (tl : string) (tbl : list (string * list string))
    (scores : gmap string Z) (k : string) :
  k ∈ dom (fold_left (score_sku tl) tbl scores) <->
  k ∈ dom scores \/
  exists inds, (k, inds) ∈ tbl /\ k <> "CGO-BUNDLE" /\ 2 <= indicator_score inds tl.
Proof.
  revert scores. induction tbl as [|[k' inds'] tbl IH]; intros scores; cbn [fold_left].
  - split; [by left | intros [?|(inds & H & _)]; [done | by apply elem_of_nil in H]].
  - rewrite IH. unfold score_sku.
    destruct (String.eqb_spec k' "CGO-BUNDLE") as [->|Hk'].
    + split; [intros [?|(inds & ? & ?)] | intros [?|(inds & [Heq|?]%elem_of_cons & Hne & ?)]].
      * by left.
      * right. exists inds. split; [by right | done].
      * by left.
      * by simplify_eq.
      * right. by exists inds.
    + destruct (Z.leb_spec 2 (indicator_score inds' tl)) as [Hs|Hs].
      * rewrite dom_insert, elem_of_union, elem_of_singleton. split.
        -- intros [[->|?]|(inds & ? & ?)].
           ++ right. exists inds'. split; [by left | done].
           ++ by left.
           ++ right. exists inds. split; [by right | done].
        -- intros [?|(inds & [Heq|?]%elem_of_cons & Hne & ?)].
           ++ left. by right.
           ++ simplify_eq. left. by left.
           ++ right. by exists inds.
      * split.
        -- intros [?|(inds & ? & ?)]; [by left|].
           right. exists inds. split; [by right | done].
        -- intros [?|(inds & [Heq|?]%elem_of_cons & Hne & ?)]; [by left | |].
           ++ simplify_eq. lia.
           ++ right. by exists inds.
Qed.

(** A sku is recommended from a transcript exactly when it is a key of the
    pain-point table and one of its indicators occurs in the lowered text. *)
Lemma recommend_from_transcript_spec (text k : string) :
  k ∈ _recommend_from_transcript text <->
  exists inds, (k, inds) ∈ PAIN_POINT_MAP /\ (1 <= hit_count inds text)%nat.
Proof.
  unfold _recommend_from_transcript. rewrite score_sku_dom, dom_empty, elem_of_empty.
  split.
  - intros [[]|(inds & Hin & _ & Hs)]. exists inds. split; [done|].
    rewrite indicator_score_hits in Hs. lia.
  - intros (inds & Hin & Hh). right. exists inds. split; [done|].
    rewrite indicator_score_hits. split; [|lia].
    unfold PAIN_POINT_MAP in Hin. set_solver.
Qed.

Lemma all_skus_acc (ts : list string) (acc : gset string) (k : string) :
  k ∈ fold_left (fun acc t => acc ∪ _recommend_from_transcript t) ts acc <->
  k ∈ acc \/ exists t, t ∈ ts /\ k ∈ _recommend_from_transcript t.
Proof.
  revert acc. induction ts as [|t ts IH]; intros acc; cbn [fold_left].
  - set_solver.
  - rewrite IH. set_solver.
Qed.

(** The qualifying skus of a transcript list are those recommended from one
    of its transcripts. *)
Lemma all_skus_spec (ts : list string) (k : string) :
  k ∈ all_skus ts <-> exists t, t ∈ ts /\ k ∈ _recommend_from_transcript t.
Proof. unfold all_skus. rewrite all_skus_acc. set_solver. Qed.

(** Every key of the pain-point table is the sku of a catalog entry other
    than the bundle. *)
Lemma pain_point_keys_in_catalog (k : string) (inds : list string) :
  (k, inds) ∈ PAIN_POINT_MAP ->
  k <> "CGO-BUNDLE" /\ exists s, s ∈ SERVICES /\ sku s = k.
Proof.
  unfold PAIN_POINT_MAP. intros H.
  repeat (apply elem_of_cons in H as [H|H];
          [injection H as -> _; split; [done|];
           eexists (mkService _ _ _ _); split; [|reflexivity];
           unfold SERVICES; repeat (first [by left | right]) |]).
  by apply elem_of_nil in H.
Qed.

Lemma all_skus_in_catalog (ts : list string) (k : string) :
  k ∈ all_skus ts -> k <> "CGO-BUNDLE" /\ exists s, s ∈ SERVICES /\ sku s = k.
Proof.
  intros (t & _ & (inds & Hin & _)%recommend_from_transcript_spec)%all_skus_spec.
  by eapply pain_point_keys_in_catalog.
Qed.

Lemma catalog_skus_NoDup : NoDup (sku <$> SERVICES).
Proof. apply (bool_decide_unpack _). by vm_compute. Qed.

(** Selecting the catalog entries of a set of qualifying skus yields one
    entry per sku. *)
Lemma selection_length (ts : list string) :
  length (filter (fun s => sku s ∈ all_skus ts) SERVICES) = size (all_skus ts).
Proof.
  set (sel := filter (fun s => sku s ∈ all_skus ts) SERVICES).
  assert (NoDup (sku <$> sel)) as Hnd.
  { apply (sublist_NoDup _ (sku <$> SERVICES)); [apply catalog_skus_NoDup|].
    apply fmap_sublist, sublist_filter. }
  assert (list_to_set (sku <$> sel) = all_skus ts) as Hq.
  { apply set_eq. intros k. rewrite elem_of_list_to_set, list_elem_of_fmap. split.
    - intros (s & -> & [? _]%list_elem_of_filter). done.
    - intros Hk. destruct (all_skus_in_catalog _ _ Hk) as (_ & s & Hs & <-).
      exists s. split; [done|]. by apply list_elem_of_filter. }
  trans (size (list_to_set (C:=gset string) (sku <$> sel))).
  - by rewrite size_list_to_set, length_fmap.
  - f_equal. exact Hq.
Qed.



(** The bundle price is not tied to the sum it replaces: four qualifying
    skus can sum to 6500, all six sum to 12500. *)
Example bundle_replaces_smaller_sum :
  let ts := ["crm, clay, spam, inmail"] in
  recommend_services ts = ([BUNDLE], 12000) /\
  sum_prices (filter (fun s => sku s ∈ all_skus ts) SERVICES) = 6500.
Proof. by vm_compute. Qed.

Example bundle_replaces_larger_sum :
  let ts := ["crm, abm, quota, clay, spam, inmail"] in
  recommend_services ts = ([BUNDLE], 12000) /\
  sum_prices (filter (fun s => sku s ∈ all_skus ts) SERVICES) = 12500.
Proof. by vm_compute. Qed.

(** C10. The selection of [recommend_services] is the bundle entry alone at
    12000, or consists of entries other than the bundle with the sum of
    their prices as total; the bundle sku is not a key of the indicator
    table and no transcript makes it qualify. *)
Theorem recommend_services_never_mixes (transcripts : list string) :
  (recommend_services transcripts = ([BUNDLE], price BUNDLE) \/
   exists sel,
     recommend_services transcripts = (sel, sum_prices sel) /\
     Forall (fun s => sku s <> "CGO-BUNDLE") sel) /\
  ("CGO-BUNDLE" ∉ PAIN_POINT_MAP.*1) /\
  ("CGO-BUNDLE" ∉ all_skus transcripts) /\
  forall text, "CGO-BUNDLE" ∉ _recommend_from_transcript text.
Proof.
  split; [|split; [|split]].
  - unfold recommend_services.
    destruct (Nat.leb_spec 4 (size (all_skus transcripts))); [by left|].
    right. eexists. split; [reflexivity|].
    apply Forall_forall. intros s [Hs _]%list_elem_of_filter.
    by apply all_skus_in_catalog in Hs as [? _].
  - apply (bool_decide_unpack _). by vm_compute.
  - intros H. by apply all_skus_in_catalog in H as [? _].
  - intros text (inds & Hin & _)%recommend_from_transcript_spec.
    by apply pain_point_keys_in_catalog in Hin as [? _].
Qed.

(** The pain-point table is a dict: a key has one list of indicators. *)
Lemma pain_point_indicators_unique (k : string) (i1 i2 : list string) :
  (k, i1) ∈ PAIN_POINT_MAP -> (k, i2) ∈ PAIN_POINT_MAP -> i1 = i2.
Proof.
  assert (NoDup PAIN_POINT_MAP.*1) as Hnd
    by (apply (bool_decide_unpack _); by vm_compute).
  revert Hnd. generalize PAIN_POINT_MAP.
  induction l as [|[k' v'] l IH]; csimpl; intros Hnd H1 H2.
  - by apply elem_of_nil in H1.
  - apply NoDup_cons in Hnd as [Hni Hnd].
    apply elem_of_cons in H1 as [?|H1], H2 as [?|H2]; simplify_eq; [done| | |eauto].
    + destruct Hni. apply list_elem_of_fmap. by exists (k', i2).
    + destruct Hni. apply list_elem_of_fmap. by exists (k', i1).
Qed.

(** C2, as the code has it. For a sku of the pain-point table, an indicator
    hits when some substring of the transcript equals it up to case; each
    hit scores 2 and the sku qualifies at a score of 2, that is with at
    least one hit; transcripts that agree up to case recommend the same
    skus. *)
Theorem recommend_from_transcript_one_hit (text k : string) (inds : list string) :
  (k, inds) ∈ PAIN_POINT_MAP ->
  (forall ind, contains (lower text) ind = true <->
     exists pre u post, text = pre +:+ u +:+ post /\ lower u = ind) /\
  (forall text', lower text' = lower text ->
     _recommend_from_transcript text' = _recommend_from_transcript text) /\
  indicator_score inds (lower text) = 2 * Z.of_nat (hit_count inds text) /\
  (k ∈ _recommend_from_transcript text <-> (1 <= hit_count inds text)%nat).
Proof.
  intros Hin. split; [|split; [|split]].
  - intros ind. apply contains_lower_spec.
  - intros text' Heq. unfold _recommend_from_transcript. by rewrite Heq.
  - apply indicator_score_hits.
  - rewrite recommend_from_transcript_spec. split.
    + intros (inds' & Hin' & Hh).
      by rewrite (pain_point_indicators_unique _ _ _ Hin Hin').
    + intros Hh. by exists inds.
Qed.

Lemma recommend_from_transcript_one_hit_witness :
  "CGO-CRM" ∈ _recommend_from_transcript "Our CRM works fine" <->
  (1 <= hit_count (indicators_of "CGO-CRM") "Our CRM works fine")%nat.
Proof.
  apply (recommend_from_transcript_one_hit "Our CRM works fine" "CGO-CRM"
           (indicators_of "CGO-CRM")).
  apply (bool_decide_unpack _). by vm_compute.
Defined.

(** C2, as stated, fails: the transcript "Our CRM works fine" hits exactly
    one CRM indicator, "crm", and CGO-CRM qualifies. *)
Lemma single_hit_qualifies :
  ("CGO-CRM", indicators_of "CGO-CRM") ∈ PAIN_POINT_MAP /\
  hit_count (indicators_of "CGO-CRM") "Our CRM works fine" = 1%nat /\
  indicator_score (indicators_of "CGO-CRM") (lower "Our CRM works fine") = 2 /\
  "CGO-CRM" ∈ _recommend_from_transcript "Our CRM works fine" /\
  ~ (forall text k inds,
       (k, inds) ∈ PAIN_POINT_MAP ->
       (k ∈ _recommend_from_transcript text <-> (2 <= hit_count inds text)%nat)).
Proof.
  assert (("CGO-CRM", indicators_of "CGO-CRM") ∈ PAIN_POINT_MAP) as Hin
    by (apply (bool_decide_unpack _); by vm_compute).
  assert ("CGO-CRM" ∈ _recommend_from_transcript "Our CRM works fine") as Hq
    by (apply (bool_decide_unpack _); by vm_compute).
  split; [done|]. split; [by vm_compute|]. split; [by vm_compute|]. split; [done|].
  intros H. apply (H _ _ _ Hin) in Hq. vm_compute in Hq. lia.
Qed.

(** ** The tolerant fetchers *)

Open Scope nat_scope.
Open Scope list_scope.

Lemma fetch_records_each (up : upstream) (api_key : string) (kind : record_kind)
    (ids : list json) :
  fetch_records up api_key kind ids = fetch_each up api_key (record_path kind) ids [].
Proof. by destruct kind. Qed.

Section FetchEach.

Context (up : upstream) (api_key path : string).

Lemma fetch_each_ok (cid : json) (rest records : list json) (d : json) (n : nat) :
  up n (hubspot GET (path +:+ str cid)) = Ret d ->
  fetch_each up api_key path (cid :: rest) records n
  = fetch_each up api_key path rest (records ++ [d]) (S n).
Proof.
  intros H. cbn [fetch_each].
  unfold try_except_HTTPError, _hubspot_get, call. fold (hubspot GET (path +:+ str cid)).
  by rewrite H.
Qed.

Lemma fetch_each_http_error (cid : json) (rest records : list json)
    (msg : string) (n : nat) :
  up n (hubspot GET (path +:+ str cid)) = Raise (HTTPError msg) ->
  fetch_each up api_key path (cid :: rest) records n
  = fetch_each up api_key path rest records (S n).
Proof.
  intros H. cbn [fetch_each].
  unfold try_except_HTTPError, _hubspot_get, call. fold (hubspot GET (path +:+ str cid)).
  by rewrite H.
Qed.

(** When every id is answered, the records come back in order. *)
Lemma fetch_each_all_ok (ids data records : list json) (n : nat) :
  length data = length ids ->
  (forall j cid d, ids !! j = Some cid -> data !! j = Some d ->
     up (n + j)%nat (hubspot GET (path +:+ str cid)) = Ret d) ->
  fetch_each up api_key path ids records n = (Ret (records ++ data), (n + length ids)%nat).
Proof.
  revert data records n.
  induction ids as [|cid ids IH]; intros [|d data] records n Hlen Hok;
    try discriminate.
  - cbn. by rewrite app_nil_r, Nat.add_0_r.
  - rewrite (fetch_each_ok _ _ _ d).
    + rewrite (IH data).
      * cbn [length]. by rewrite <- app_assoc, Nat.add_succ_r.
      * by injection Hlen.
      * intros j c e Hc He. replace (S n + j)%nat with (n + S j)%nat by lia. by apply Hok.
    + specialize (Hok 0%nat cid d eq_refl eq_refl). by rewrite Nat.add_0_r in Hok.
Qed.

(** When exactly the [i]-th id fails, with an HTTP error, its record is
    left out and the others come back in order. *)
Lemma fetch_each_one_failed (ids data records : list json) (i : nat)
    (msg : string) (n : nat) :
  length data = length ids ->
  (forall j cid d, j <> i -> ids !! j = Some cid -> data !! j = Some d ->
     up (n + j)%nat (hubspot GET (path +:+ str cid)) = Ret d) ->
  (forall cid, ids !! i = Some cid ->
     up (n + i)%nat (hubspot GET (path +:+ str cid)) = Raise (HTTPError msg)) ->
  (i < length ids)%nat ->
  fetch_each up api_key path ids records n
  = (Ret (records ++ delete i data), (n + length ids)%nat).
Proof.
  revert data records i n.
  induction ids as [|cid ids IH]; intros [|d data] records i n Hlen Hok Hfail Hi;
    try discriminate; cbn [length] in *; [lia|].
  injection Hlen as Hlen. destruct i as [|i].
  - rewrite (fetch_each_http_error _ _ _ msg).
    + rewrite (fetch_each_all_ok ids data); [by rewrite Nat.add_succ_r|done|].
      intros j c e Hc He. replace (S n + j)%nat with (n + S j)%nat by lia. by apply Hok.
    + specialize (Hfail cid eq_refl). by rewrite Nat.add_0_r in Hfail.
  - rewrite (fetch_each_ok _ _ _ d).
    + rewrite (IH data _ i); [|done| | |lia].
      * cbn [delete list_delete]. by rewrite <- app_assoc, Nat.add_succ_r.
      * intros j c e Hj Hc He. replace (S n + j)%nat with (n + S j)%nat by lia.
        apply Hok; [lia|done..].
      * intros c Hc. replace (S n + i)%nat with (n + S i)%nat by lia. by apply Hfail.
    + specialize (Hok 0%nat cid d ltac:(lia) eq_refl eq_refl).
      by rewrite Nat.add_0_r in Hok.
Qed.

(** Whatever ids fail, as long as they fail with an HTTP error, the fetcher
    returns after one call per id. *)
Lemma fetch_each_tolerant (ids records : list json) (n : nat) :
  (forall j cid e, ids !! j = Some cid ->
     up (n + j)%nat (hubspot GET (path +:+ str cid)) = Raise e -> is_HTTPError e) ->
  exists fetched,
    fetch_each up api_key path ids records n
    = (Ret (records ++ fetched), (n + length ids)%nat) /\
    length fetched <= length ids.
Proof.
  revert records n. induction ids as [|cid ids IH]; intros records n Hup.
  - exists []. cbn. by rewrite app_nil_r, Nat.add_0_r.
  - assert (forall j c e, ids !! j = Some c ->
              up (S n + j)%nat (hubspot GET (path +:+ str c)) = Raise e ->
              is_HTTPError e) as Hrest.
    { intros j c e Hc. replace (S n + j) with (n + S j) by lia. by apply Hup. }
    destruct (up n (hubspot GET (path +:+ str cid))) as [d|e] eqn:E.
    + destruct (IH (records ++ [d]) (S n) Hrest) as (fetched & Hf & Hlen).
      exists (d :: fetched). rewrite (fetch_each_ok _ _ _ d _ E), Hf.
      cbn [length]. rewrite <- app_assoc, Nat.add_succ_r. split; [done | lia].
    + assert (is_HTTPError e) as He.
      { apply (Hup 0 cid e eq_refl). by rewrite Nat.add_0_r. }
      destruct e as [msg| | | | | | |]; try done.
      destruct (IH records (S n) Hrest) as (fetched & Hf & Hlen).
      exists fetched. rewrite (fetch_each_http_error _ _ _ msg _ E), Hf.
      cbn [length]. rewrite Nat.add_succ_r. split; [done | lia].
Qed.

End FetchEach.

(** C8, as the code has it. Of [N] contact (or company) ids, let exactly one
    fail to fetch with an HTTP error status, the one failure the fetcher
    handles, and every other be answered with its record. The fetcher
    returns, rather than raises, the [N-1] other records in order, after [N]
    calls. *)
Theorem tolerant_fetch_omits_failed (up : upstream) (api_key : string)
    (kind : record_kind) (ids data : list json) (i : nat) (msg : string)
    (n : nat) :
  length data = length ids ->
  (i < length ids)%nat ->
  (forall j cid d, j <> i -> ids !! j = Some cid -> data !! j = Some d ->
     up (n + j)%nat (hubspot GET (record_path kind +:+ str cid)) = Ret d) ->
  (forall cid, ids !! i = Some cid ->
     up (n + i)%nat (hubspot GET (record_path kind +:+ str cid))
     = Raise (HTTPError msg)) ->
  fetch_records up api_key kind ids n = (Ret (delete i data), (n + length ids)%nat) /\
  length (delete i data) = (length ids - 1)%nat /\
  delete i data = take i data ++ drop (S i) data.
Proof.
  intros Hlen Hi Hok Hfail. split; [|split].
  - rewrite fetch_records_each.
    by rewrite (fetch_each_one_failed up api_key _ ids data [] i msg n).
  - rewrite length_delete; [lia|]. apply lookup_lt_is_Some. lia.
  - apply delete_take_drop.
Qed.

Lemma tolerant_fetch_omits_failed_witness :
  fetch_records example_upstream "pat-na1" Contacts [JStr "p1"; JStr "p2"] 2
  = (Ret [JObj [("id", JStr "p1")]], 4).
Proof.
  apply (tolerant_fetch_omits_failed example_upstream "pat-na1" Contacts
           [JStr "p1"; JStr "p2"] [JObj [("id", JStr "p1")]; JNull] 1
           "404 Client Error" 2).
  - reflexivity.
  - cbn. lia.
  - intros [|[|j]] cid d Hj Hc Hd; [|lia|discriminate].
    injection Hc as <-. injection Hd as <-. reflexivity.
  - intros cid Hc. injection Hc as <-. reflexivity.
Defined.

(** C8 as stated fails. Of two contacts the first is answered and the
    second, and only the second, fails to fetch: it times out. The fetcher
    raises the timeout and returns no list, the fetched record is lost. *)
Lemma tolerant_fetch_timeout_raises :
  contact_times_out 2 (hubspot GET "/crm/v3/objects/contacts/p1")
  = Ret (JObj [("id", JStr "p1")]) /\
  contact_times_out 3 (hubspot GET "/crm/v3/objects/contacts/p2") = Raise Timeout /\
  fetch_records contact_times_out "pat-na1" Contacts [JStr "p1"; JStr "p2"] 2
  = (Raise Timeout, 4) /\
  fetch_contacts contact_times_out "pat-na1" [JStr "p1"; JStr "p2"] 2
  = (Raise Timeout, 4).
Proof. by vm_compute. Qed.

(** ** The effect monad *)

Lemma bind_Ret_inv {A B} (m : M A) (k : A -> M B) (n : nat) (b : B) (n' : nat) :
  bind m k n = (Ret b, n') ->
  exists a n1, m n = (Ret a, n1) /\ k a n1 = (Ret b, n').
Proof.
  unfold bind. destruct (m n) as [[a|e] n1]; [eauto | discriminate].
Qed.

Lemma try_Ret_inv {A B} (body : M A) (handler : string -> M B) (k : A -> M B)
    (n : nat) (b : B) (n' : nat) :
  try_except_HTTPError body handler k n = (Ret b, n') ->
  (exists a n1, body n = (Ret a, n1) /\ k a n1 = (Ret b, n')) \/
  (exists msg n1, body n = (Raise (HTTPError msg), n1) /\
                  handler msg n1 = (Ret b, n')).
Proof.
  unfold try_except_HTTPError. intros H.
  destruct (body n) as [[a|e] n1]; [by eauto|].
  destruct e; first [discriminate | by eauto].
Qed.

Lemma bind_Ret {A B} (m : M A) (k : A -> M B) (n : nat) (a : A) (n1 : nat) :
  m n = (Ret a, n1) -> bind m k n = k a n1.
Proof. unfold bind. by intros ->. Qed.

Lemma bind_Raise {A B} (m : M A) (k : A -> M B) (n : nat) (e : exn) (n1 : nat) :
  m n = (Raise e, n1) -> bind m k n = (Raise e, n1).
Proof. unfold bind. by intros ->. Qed.

Lemma try_Ret {A B} (body : M A) (handler : string -> M B) (k : A -> M B)
    (n : nat) (a : A) (n1 : nat) :
  body n = (Ret a, n1) -> try_except_HTTPError body handler k n = k a n1.
Proof. unfold try_except_HTTPError. by intros ->. Qed.

Lemma try_HTTPError {A B} (body : M A) (handler : string -> M B) (k : A -> M B)
    (n : nat) (msg : string) (n1 : nat) :
  body n = (Raise (HTTPError msg), n1) ->
  try_except_HTTPError body handler k n = handler msg n1.
Proof. unfold try_except_HTTPError. by intros ->. Qed.

Lemma try_other {A B} (body : M A) (handler : string -> M B) (k : A -> M B)
    (n : nat) (e : exn) (n1 : nat) :
  body n = (Raise e, n1) -> ~ is_HTTPError e ->
  try_except_HTTPError body handler k n = (Raise e, n1).
Proof.
  unfold try_except_HTTPError. intros -> H. destruct e; first [done | by destruct H].
Qed.

Lemma bind_assoc {A B C} (m : M A) (f : A -> M B) (g : B -> M C) (n : nat) :
  bind (bind m f) g n = bind m (fun a => bind (f a) g) n.
Proof. unfold bind. by destruct (m n) as [[a|e] n1]. Qed.

Lemma bind_ext {A B} (m : M A) (f g : A -> M B) (n : nat) :
  (forall a n1, f a n1 = g a n1) -> bind m f n = bind m g n.
Proof. intros H. unfold bind. destruct (m n) as [[a|e] n1]; [apply H | done]. Qed.

(** ** Checks before any call *)

Lemma unset_configured (env : Env) (api_key portal_id anthropic_key : string) :
  configured env api_key portal_id anthropic_key ->
  unset (HUBSPOT_API_KEY env) = false /\
  unset (HUBSPOT_PORTAL_ID env) = false /\
  unset (ANTHROPIC_API_KEY env) = false.
Proof.
  intros (-> & H1 & H2 & H3). cbn.
  by rewrite !(proj2 (String.eqb_neq _ _)).
Qed.

Lemma classify_portal_mismatch (url_portal portal_id : string) :
  classify (MSG_PORTAL_MISMATCH url_portal portal_id) = ValidationError.
Proof. by vm_compute. Qed.

(** C5. A reference without a parseable deal path, or whose tenant differs
    from the configured one, ends the run with a failure result after zero
    upstream calls (the call count is unchanged, whatever the upstream); the
    failure is never an UpstreamError, and with the credentials configured
    it is a ValidationError. *)
Theorem invalid_reference_validation_error (up : upstream) (env : Env)
    (deal_url : string) (n : nat) :
  (parse_deal_url deal_url = None \/
   exists p d, parse_deal_url deal_url = Some (p, d) /\
               HUBSPOT_PORTAL_ID env <> Some p) ->
  exists msg,
    run_workflow up env deal_url n = (Ret (Failure msg), n) /\
    classify msg <> UpstreamError /\
    (forall api_key portal_id anthropic_key,
       configured env api_key portal_id anthropic_key ->
       classify msg = ValidationError).
Proof.
  intros Hbad. unfold run_workflow.
  destruct (unset (HUBSPOT_API_KEY env) || unset (HUBSPOT_PORTAL_ID env)) eqn:E1.
  { eexists. split; [reflexivity|]. split; [done|].
    intros a p k (? & ? & ?)%unset_configured.
    apply orb_true_iff in E1 as [E1|E1]; congruence. }
  apply orb_false_iff in E1 as [E1 E2].
  destruct (unset (ANTHROPIC_API_KEY env)) eqn:E3.
  { eexists. split; [reflexivity|]. split; [done|].
    intros a p k (? & ? & ?)%unset_configured. congruence. }
  destruct Hbad as [->|(p & d & -> & Hne)].
  { eexists. split; [reflexivity|]. by split. }
  destruct (String.eqb_spec p (default "" (HUBSPOT_PORTAL_ID env))) as [->|Hp].
  { destruct (HUBSPOT_PORTAL_ID env) as [q|]; [by destruct Hne | discriminate]. }
  eexists. split; [reflexivity|]. rewrite classify_portal_mismatch. by split.
Qed.

Lemma invalid_reference_validation_error_witness :
  exists msg,
    run_workflow example_upstream example_env
      "https://app.hubspot.com/contacts/999/record/0-3/456" 0
    = (Ret (Failure msg), 0) /\
    classify msg <> UpstreamError /\
    (forall api_key portal_id anthropic_key,
       configured example_env api_key portal_id anthropic_key ->
       classify msg = ValidationError).
Proof.
  apply invalid_reference_validation_error.
  right. exists "999", "456". split; [by vm_compute | discriminate].
Defined.

(** ** Zero transcripts *)

(** Up to the transcript fetch the run is determined by the context. *)
Lemma run_workflow_reaches_transcripts (up : upstream) (env : Env)
    (deal_url : string) (n : nat)
    (api_key portal_id anthropic_key deal_id : string) (company_name : json)
    (n2 : nat) :
  reaches_transcripts up env deal_url n api_key portal_id anthropic_key deal_id
    company_name n2 ->
  run_workflow up env deal_url n
  = bind (fetch_fathom_transcripts up api_key deal_id)
         (propose up api_key portal_id anthropic_key deal_id company_name) n2.
Proof.
  intros (Hcfg & Hparse & deal_resp & n1 & Hdeal & Hctx).
  unfold run_workflow.
  destruct (unset_configured _ _ _ _ Hcfg) as (-> & -> & ->).
  destruct Hcfg as (-> & _). cbn [orb HUBSPOT_API_KEY HUBSPOT_PORTAL_ID
    ANTHROPIC_API_KEY default from_option id].
  rewrite Hparse, String.eqb_refl. cbn [negb].
  rewrite (try_Ret _ _ _ _ _ _ Hdeal).
  by rewrite (bind_Ret _ _ _ _ _ Hctx).
Qed.

(** A failed listing of the meeting associations is an empty transcript
    list. *)
Lemma fetch_fathom_transcripts_listing_failed (up : upstream)
    (api_key deal_id msg : string) (n : nat) :
  up n (hubspot GET ("/crm/v4/objects/deals/" +:+ deal_id +:+ "/associations/meetings"))
  = Raise (HTTPError msg) ->
  fetch_fathom_transcripts up api_key deal_id n = (Ret [], S n).
Proof.
  intros H. unfold fetch_fathom_transcripts.
  erewrite try_HTTPError; [reflexivity|].
  erewrite bind_Raise; [reflexivity|].
  unfold _hubspot_get, call. by rewrite <- H.
Qed.

(** C4, as the code has it. When the transcript fetch of a run yields no
    transcript, whether because no meeting carries a marked summary or
    because listing the meeting associations failed with an HTTP error
    status, the one failure of the listing that counts as an empty
    transcript set, the run returns the
    no-transcripts failure, a PreconditionFailed and not an UpstreamError.
    The context the run has gathered before, in particular what the company
    and contact fetches returned, plays no part. *)
Theorem no_transcripts_precondition_failed (up : upstream) (env : Env)
    (deal_url : string) (n : nat)
    (api_key portal_id anthropic_key deal_id : string) (company_name : json)
    (n2 n3 : nat) :
  reaches_transcripts up env deal_url n api_key portal_id anthropic_key deal_id
    company_name n2 ->
  (fetch_fathom_transcripts up api_key deal_id n2 = (Ret [], n3) \/
   (exists msg,
      up n2 (hubspot GET ("/crm/v4/objects/deals/" +:+ deal_id +:+
                          "/associations/meetings"))
      = Raise (HTTPError msg)) /\ n3 = S n2) ->
  run_workflow up env deal_url n = (Ret (Failure MSG_NO_TRANSCRIPTS), n3) /\
  classify MSG_NO_TRANSCRIPTS = PreconditionFailed.
Proof.
  intros Hreach Hnone. split; [|by vm_compute].
  rewrite (run_workflow_reaches_transcripts _ _ _ _ _ _ _ _ _ _ Hreach).
  assert (fetch_fathom_transcripts up api_key deal_id n2 = (Ret [], n3)) as H.
  { destruct Hnone as [H|[[msg H] ->]]; [done|].
    by eapply fetch_fathom_transcripts_listing_failed. }
  by rewrite (bind_Ret _ _ _ _ _ H).
Qed.

Lemma no_transcripts_precondition_failed_witness :
  run_workflow (routed example_context_routes) example_env example_url 0
  = (Ret (Failure MSG_NO_TRANSCRIPTS), 5) /\
  classify MSG_NO_TRANSCRIPTS = PreconditionFailed.
Proof.
  apply (no_transcripts_precondition_failed (routed example_context_routes)
           example_env example_url 0 "pat-na1" "123" "sk-ant" "456"
           (JStr "Acme") 4 5).
  - split; [by repeat split|]. split; [by vm_compute|].
    exists example_deal, 1. split; by vm_compute.
  - right. split; [|reflexivity]. exists "404 Client Error". by vm_compute.
Defined.

(** C4 as stated fails. The run reaches the transcript fetch with the
    context of the example, and the listing of the meeting associations
    fails: it times out. The run does not return the no-transcripts failure,
    it raises the timeout. *)
Lemma listing_timeout_raises :
  reaches_transcripts listing_times_out example_env example_url 0
    "pat-na1" "123" "sk-ant" "456" (JStr "Acme") 4 /\
  listing_times_out 4 (hubspot GET "/crm/v4/objects/deals/456/associations/meetings")
  = Raise Timeout /\
  fetch_fathom_transcripts listing_times_out "pat-na1" "456" 4 = (Raise Timeout, 5) /\
  run_workflow listing_times_out example_env example_url 0 = (Raise Timeout, 5).
Proof.
  split; [|by vm_compute].
  split; [by repeat split|]. split; [by vm_compute|].
  exists example_deal, 1. split; by vm_compute.
Qed.

(** ** Which exceptions leave a computation *)

Lemma pure_ok_Ret {A} (a : A) : pure_ok (Ret a).
Proof. intros e H. discriminate. Qed.

Lemma pure_ok_rbind {A B} (r : result A) (k : A -> result B) :
  pure_ok r -> (forall a, pure_ok (k a)) -> pure_ok (rbind r k).
Proof.
  intros Hr Hk e. destruct r as [a|e']; cbn; [apply Hk|].
  intros [= ->]. by apply Hr.
Qed.

Lemma pure_ok_get (d : json) (k : string) (dflt : json) : pure_ok (get d k dflt).
Proof. intros e. destruct d; cbn; intros [= <-]; done. Qed.

Lemma pure_ok_getitem (d : json) (k : string) : pure_ok (getitem d k).
Proof.
  intros e. destruct d; cbn; try (intros [= <-]; done).
  destruct (lookup_key k items); intros [= <-]; done.
Qed.

Lemma pure_ok_iter (j : json) : pure_ok (iter j).
Proof. intros e. destruct j; cbn; intros [= <-]; done. Qed.

Lemma pure_ok_contains_in (j : json) (needle : string) :
  pure_ok (contains_in j needle).
Proof. intros e. destruct j; cbn; intros [= <-]; done. Qed.

Create HintDb pure_ok.

#[local] Hint Resolve pure_ok_Ret pure_ok_get pure_ok_getitem pure_ok_iter
  pure_ok_contains_in : pure_ok.

Ltac pure_ok_step :=
  first [ apply pure_ok_rbind; [|intros ?]
        | progress auto with pure_ok
        | match goal with
          | |- pure_ok (match ?x with _ => _ end) => destruct x
          | |- pure_ok (if ?b then _ else _) => destruct b
          | |- pure_ok (Raise ?e) => let H := fresh in intros ? H; by injection H as <-
          end ].

Lemma pure_ok_meeting_notes (meeting : json) : pure_ok (meeting_notes meeting).
Proof. unfold meeting_notes. repeat pure_ok_step. Qed.

Lemma pure_ok_has_fathom_marker (notes : json) : pure_ok (has_fathom_marker notes).
Proof. unfold has_fathom_marker. repeat pure_ok_step. Qed.

Lemma pure_ok_index_products (ps : list json) (sku_to_id : gmap string json) :
  pure_ok (index_products ps sku_to_id).
Proof.
  revert sku_to_id. induction ps as [|p ps IH]; intros sku_to_id;
    cbn [index_products]; repeat pure_ok_step; try apply IH.
Qed.

Lemma pure_ok_join_text_blocks (blocks : list json) (text : string) :
  pure_ok (join_text_blocks blocks text).
Proof.
  revert text. induction blocks as [|b blocks IH]; intros text;
    cbn [join_text_blocks]; repeat pure_ok_step; try apply IH.
Qed.

Lemma pure_ok_association_ids (associations : json) (kind : string) :
  pure_ok (association_ids associations kind).
Proof.
  unfold association_ids. repeat pure_ok_step.
  match goal with |- pure_ok (foldr _ _ ?l) => induction l as [|r rs IH] end;
    cbn [foldr]; repeat pure_ok_step; try apply IH.
Qed.

Lemma pure_ok_display_name (companies : list json) (deal_name : json) :
  pure_ok (display_name companies deal_name).
Proof. unfold display_name. repeat pure_ok_step. Qed.

Lemma pure_ok_as_texts (transcripts : list json) : pure_ok (as_texts transcripts).
Proof.
  induction transcripts as [|t ts IH]; cbn [as_texts]; repeat pure_ok_step;
    try apply IH.
Qed.

Lemma pure_ok_select_services (texts : list string) : pure_ok (select_services texts).
Proof.
  unfold select_services. destruct (recommend_services texts) as [services total].
  repeat pure_ok_step.
Qed.

#[local] Hint Resolve pure_ok_meeting_notes pure_ok_has_fathom_marker
  pure_ok_index_products pure_ok_join_text_blocks pure_ok_association_ids
  pure_ok_display_name pure_ok_as_texts pure_ok_select_services : pure_ok.

Section Exceptions.

Context (up : upstream).

Lemma clean_raw {A} (m : M A) : clean up m -> raw up m.
Proof. intros H n e n' Hm. by apply H in Hm as [? _]. Qed.

Lemma clean_ret {A} (a : A) : clean up (ret a).
Proof. intros n e n' H. discriminate. Qed.

Lemma clean_lift {A} (r : result A) : pure_ok r -> clean up (lift r).
Proof.
  intros Hr n e n'. unfold lift. intros [= -> _]. specialize (Hr e eq_refl).
  split; [by left|]. destruct e; cbn in *; tauto.
Qed.

Lemma raw_call (req : request) : raw up (call up req).
Proof. intros n e n'. unfold call. intros [= H _]. right. eauto. Qed.

Lemma raw_bind {A B} (m : M A) (k : A -> M B) :
  raw up m -> (forall a, raw up (k a)) -> raw up (bind m k).
Proof.
  intros Hm Hk n e n'. unfold bind. destruct (m n) as [[a|e'] n1] eqn:E.
  - apply Hk.
  - intros [= -> ->]. by eapply Hm.
Qed.



Lemma raw_hubspot_get (api_key path : string) : raw up (_hubspot_get up api_key path).
Proof. apply raw_call. Qed.

Lemma raw_hubspot_post (api_key path : string) : raw up (_hubspot_post up api_key path).
Proof. apply raw_call. Qed.

Lemma raw_hubspot_put (api_key path : string) : raw up (_hubspot_put up api_key path).
Proof.
  apply raw_bind; [apply raw_call|]. intros _. apply clean_raw, clean_ret.
Qed.




Lemma raw_fetch_products (api_key : string) : raw up (fetch_products up api_key).
Proof.
  apply raw_bind; [apply raw_hubspot_get|]. intros data.
  apply clean_raw, clean_lift. repeat pure_ok_step.
Qed.

Lemma raw_call_claude (api_key : string) : raw up (_call_claude up api_key).
Proof.
  apply raw_bind; [apply raw_call|]. intros data.
  apply clean_raw, clean_lift. repeat pure_ok_step.
Qed.

Lemma raw_create_line_items (api_key : string) (quote_id : json)
    (sku_to_id : gmap string json) (services : list Service) :
  raw up (create_line_items up api_key quote_id sku_to_id services).
Proof.
  induction services as [|svc rest IH]; cbn [create_line_items].
  - apply clean_raw, clean_ret.
  - destruct (negb _); [apply IH|].
    apply raw_bind; [apply raw_hubspot_post|]. intros line_item.
    apply raw_bind; [apply clean_raw, clean_lift; auto with pure_ok|]. intros li_id.
    apply raw_bind; [apply raw_hubspot_put|]. intros _. apply IH.
Qed.

Lemma raw_create_quote_and_line_items (api_key portal_id deal_id : string)
    (company_name : json) (services : list Service) (exec_summary preview : string) :
  raw up (create_quote_and_line_items up api_key portal_id deal_id company_name
            services exec_summary preview).
Proof.
  apply raw_bind; [apply raw_fetch_products|]. intros sku_to_id.
  apply raw_bind; [apply raw_hubspot_post|]. intros quote.
  apply raw_bind; [apply clean_raw, clean_lift; auto with pure_ok|]. intros quote_id.
  apply raw_bind; [apply raw_create_line_items|]. intros _.
  apply clean_raw, clean_ret.
Qed.






End Exceptions.

(** ** Exceptions on their way out *)

Section Propagation.

Context (up : upstream).























End Propagation.

(** ** Exceptions out of a run *)




(** ** Quote assembly *)

Section Assembly.

Context (up : upstream) (api_key : string).

Lemma create_line_items_skip (quote_id : json) (sku_to_id : gmap string json)
    (svc : Service) (rest : list Service) (k : nat) :
  billable sku_to_id svc = false ->
  create_line_items up api_key quote_id sku_to_id (svc :: rest) k
  = create_line_items up api_key quote_id sku_to_id rest k.
Proof. unfold billable. intros H. cbn [create_line_items]. by rewrite H. Qed.

Lemma create_line_items_post_fails (quote_id : json)
    (sku_to_id : gmap string json) (svc : Service) (rest : list Service)
    (e : exn) (k : nat) :
  billable sku_to_id svc = true ->
  up k (hubspot POST "/crm/v3/objects/line_items") = Raise e ->
  create_line_items up api_key quote_id sku_to_id (svc :: rest) k = (Raise e, S k).
Proof.
  unfold billable. intros H Hup. cbn [create_line_items]. rewrite H. cbn [negb].
  erewrite bind_Raise; [reflexivity|]. unfold _hubspot_post, call. by rewrite <- Hup.
Qed.

Lemma create_line_items_put_fails (quote_id : json)
    (sku_to_id : gmap string json) (svc : Service) (rest : list Service)
    (line_item li_id : json) (e : exn) (k : nat) :
  billable sku_to_id svc = true ->
  up k (hubspot POST "/crm/v3/objects/line_items") = Ret line_item ->
  getitem line_item "id" = Ret li_id ->
  up (S k) (hubspot PUT ("/crm/v3/objects/quotes/" +:+ str quote_id +:+
                         "/associations/line_items/" +:+ str li_id +:+ "/67"))
  = Raise e ->
  create_line_items up api_key quote_id sku_to_id (svc :: rest) k
  = (Raise e, S (S k)).
Proof.
  unfold billable. intros H Hpost Hid Hput. cbn [create_line_items].
  rewrite H. cbn [negb].
  erewrite bind_Ret; [|unfold _hubspot_post, call; by rewrite <- Hpost].
  erewrite bind_Ret; [|unfold lift; by rewrite Hid].
  erewrite bind_Raise; [reflexivity|].
  unfold _hubspot_put. erewrite bind_Raise; [reflexivity|].
  unfold call. by rewrite <- Hput.
Qed.

(** The loop over [pre ++ rest] is the loop over [pre], then over [rest]. *)
Lemma create_line_items_app (quote_id : json) (sku_to_id : gmap string json)
    (pre rest : list Service) (k : nat) :
  create_line_items up api_key quote_id sku_to_id (pre ++ rest) k
  = bind (create_line_items up api_key quote_id sku_to_id pre)
         (fun _ => create_line_items up api_key quote_id sku_to_id rest) k.
Proof.
  revert k. induction pre as [|svc pre IH]; intros k; [reflexivity|].
  cbn [app create_line_items]. destruct (negb _); [apply IH|].
  rewrite !bind_assoc. apply bind_ext. intros line_item k1.
  rewrite !bind_assoc. apply bind_ext. intros li_id k2.
  rewrite !bind_assoc. apply bind_ext. intros _ k3. apply IH.
Qed.

End Assembly.

Section AssemblyFailures.

Context (up : upstream) (api_key portal_id deal_id : string)
  (company_name : json) (total : Z) (exec_summary preview : string).

Lemma fetch_products_fails (e : exn) (n : nat) :
  up n (hubspot GET "/crm/v3/objects/products") = Raise e ->
  fetch_products up api_key n = (Raise e, S n).
Proof.
  intros H. unfold fetch_products. erewrite bind_Raise; [reflexivity|].
  unfold _hubspot_get, call. by rewrite <- H.
Qed.

(** Once the catalog is read and the quote created, the assembler is the
    loop over the services followed by the quote URL. *)
Lemma create_quote_then_line_items (services : list Service)
    (sku_to_id : gmap string json) (quote quote_id : json) (n n1 : nat) :
  fetch_products up api_key n = (Ret sku_to_id, n1) ->
  up n1 (hubspot POST "/crm/v3/objects/quotes") = Ret quote ->
  getitem quote "id" = Ret quote_id ->
  create_quote_and_line_items up api_key portal_id deal_id company_name services
    exec_summary preview n
  = bind (create_line_items up api_key quote_id sku_to_id services)
         (fun _ => ret ("https://app.hubspot.com/contacts/" +:+ portal_id +:+
                        "/record/0-115/" +:+ str quote_id)) (S n1).
Proof.
  intros Hp Hq Hid. unfold create_quote_and_line_items.
  rewrite (bind_Ret _ _ _ _ _ Hp).
  erewrite bind_Ret; [|unfold _hubspot_post, call; by rewrite <- Hq].
  erewrite bind_Ret; [|unfold lift; by rewrite Hid].
  reflexivity.
Qed.

Lemma assemble_HTTPError (services : list Service) (msg : string) (n k : nat) :
  create_quote_and_line_items up api_key portal_id deal_id company_name services
    exec_summary preview n = (Raise (HTTPError msg), k) ->
  assembly_failed up api_key portal_id deal_id company_name services total
    exec_summary preview msg n k.
Proof. intros H. unfold assembly_failed, assemble. by rewrite (try_HTTPError _ _ _ _ _ _ H). Qed.

(** C3, as the code has it. Nothing is caught inside the quote assembly: an
    HTTP failure of the product-catalog lookup (step 1), of the quote
    creation (step 2), or of the creation or the association of the line
    item of any selected service (step 3) ends the run with the failure
    result "HubSpot error creating quote". What is tolerated is a selected
    service whose sku has no usable product id: it is skipped without a
    call. *)
Theorem quote_assembly_failures_fatal (msg : string) :
  let failed := assembly_failed up api_key portal_id deal_id company_name in
  (forall services n,
     up n (hubspot GET "/crm/v3/objects/products") = Raise (HTTPError msg) ->
     failed services total exec_summary preview msg n (S n)) /\
  (forall services sku_to_id n n1,
     fetch_products up api_key n = (Ret sku_to_id, n1) ->
     up n1 (hubspot POST "/crm/v3/objects/quotes") = Raise (HTTPError msg) ->
     failed services total exec_summary preview msg n (S n1)) /\
  (forall pre svc rest sku_to_id quote quote_id n n1 n2,
     fetch_products up api_key n = (Ret sku_to_id, n1) ->
     up n1 (hubspot POST "/crm/v3/objects/quotes") = Ret quote ->
     getitem quote "id" = Ret quote_id ->
     create_line_items up api_key quote_id sku_to_id pre (S n1) = (Ret tt, n2) ->
     billable sku_to_id svc = true ->
     (up n2 (hubspot POST "/crm/v3/objects/line_items") = Raise (HTTPError msg) ->
      failed (pre ++ svc :: rest) total exec_summary preview msg n (S n2)) /\
     (forall line_item li_id,
        up n2 (hubspot POST "/crm/v3/objects/line_items") = Ret line_item ->
        getitem line_item "id" = Ret li_id ->
        up (S n2)
           (hubspot PUT ("/crm/v3/objects/quotes/" +:+ str quote_id +:+
                         "/associations/line_items/" +:+ str li_id +:+ "/67"))
        = Raise (HTTPError msg) ->
        failed (pre ++ svc :: rest) total exec_summary preview msg n (S (S n2)))) /\
  (forall quote_id sku_to_id svc rest k,
     billable sku_to_id svc = false ->
     create_line_items up api_key quote_id sku_to_id (svc :: rest) k
     = create_line_items up api_key quote_id sku_to_id rest k).
Proof.
  intros failed. split; [|split; [|split]].
  - intros services n H. apply assemble_HTTPError.
    unfold create_quote_and_line_items.
    by rewrite (bind_Raise _ _ _ _ _ (fetch_products_fails _ _ H)).
  - intros services sku_to_id n n1 Hp H. apply assemble_HTTPError.
    unfold create_quote_and_line_items. rewrite (bind_Ret _ _ _ _ _ Hp).
    erewrite bind_Raise; [reflexivity|]. unfold _hubspot_post, call. by rewrite <- H.
  - intros pre svc rest sku_to_id quote quote_id n n1 n2 Hp Hq Hid Hpre Hb.
    split; [intros H | intros line_item li_id Hpost Hli H]; apply assemble_HTTPError;
      rewrite (create_quote_then_line_items _ _ _ _ _ _ Hp Hq Hid);
      (erewrite bind_Raise; [reflexivity|]);
      rewrite create_line_items_app, (bind_Ret _ _ _ _ _ Hpre).
    + by apply create_line_items_post_fails.
    + by eapply create_line_items_put_fails.
  - intros. by apply create_line_items_skip.
Qed.

End AssemblyFailures.

(** C3, as stated, fails: with the product catalog down (step 1), with line
    items failing to be created, or with their association refused (step 3),
    the run ends in a failure result. *)
Lemma assembly_step_failures_escalate :
  run_workflow products_down example_env example_url 0
  = (Ret (Failure "HubSpot error creating quote: 503 Server Error"), 10) /\
  run_workflow line_items_down example_env example_url 0
  = (Ret (Failure "HubSpot error creating quote: 500 Server Error"), 12) /\
  run_workflow association_refused example_env example_url 0
  = (Ret (Failure "HubSpot error creating quote: 403 Client Error"), 13) /\
  classify "HubSpot error creating quote: 503 Server Error" = UpstreamError.
Proof. repeat split; by vm_compute. Qed.

Lemma quote_assembly_failures_fatal_witness :
  assembly_failed products_down "pat-na1" "123" "456" (JStr "Acme")
    [SALESOPS; CRM] 5000 "<h3>Plan</h3>" "<h3>Plan</h3>" "503 Server Error" 9 10 /\
  assembly_failed line_items_down "pat-na1" "123" "456" (JStr "Acme")
    ([] ++ SALESOPS :: [CRM]) 5000 "<h3>Plan</h3>" "<h3>Plan</h3>"
    "500 Server Error" 9 12.
Proof.
  split.
  - apply (proj1 (quote_assembly_failures_fatal products_down "pat-na1" "123"
                    "456" (JStr "Acme") 5000%Z "<h3>Plan</h3>" "<h3>Plan</h3>"
                    "503 Server Error")).
    by vm_compute.
  - destruct (proj2 (quote_assembly_failures_fatal line_items_down "pat-na1"
                       "123" "456" (JStr "Acme") 5000%Z "<h3>Plan</h3>"
                       "<h3>Plan</h3>" "500 Server Error")) as (_ & H3 & _).
    refine (proj1 (H3 [] SALESOPS [CRM]
                     (list_to_map [("CGO-CRM", JStr "9001");
                                   ("CGO-SALESOPS", JStr "9002");
                                   ("CGO-MKTOPS", JStr "9003")])
                     (JObj [("id", JStr "777")]) (JStr "777") 9 10 11
                     _ _ _ _ _) _); by vm_compute.
Defined.

(** ** From the transcripts to the result *)

Section Proposal.

Context (up : upstream) (env : Env) (deal_url : string) (n : nat)
  (api_key portal_id anthropic_key deal_id : string) (company_name : json)
  (n2 : nat).

Hypothesis Hreach :
  reaches_transcripts up env deal_url n api_key portal_id anthropic_key deal_id
    company_name n2.

(** With transcripts fetched and services selected, the run is the delivery
    of that selection. *)
Lemma run_workflow_delivers (transcripts : list json) (texts : list string)
    (services : list Service) (total : Z) (n3 : nat) :
  fetch_fathom_transcripts up api_key deal_id n2 = (Ret transcripts, n3) ->
  transcripts <> [] ->
  as_texts transcripts = Ret texts ->
  select_services texts = Ret (services, total) ->
  run_workflow up env deal_url n
  = deliver up api_key portal_id anthropic_key deal_id company_name texts
      services total n3.
Proof.
  intros Hfetch Hne Htexts Hsel.
  rewrite (run_workflow_reaches_transcripts _ _ _ _ _ _ _ _ _ _ Hreach).
  rewrite (bind_Ret _ _ _ _ _ Hfetch).
  destruct transcripts as [|t ts]; [done|]. cbn [propose].
  erewrite bind_Ret; [|unfold lift; by rewrite Htexts].
  erewrite bind_Ret; [|unfold lift; by rewrite Hsel].
  reflexivity.
Qed.

End Proposal.

(** A successful delivery reports the selection it was given and the URL of
    the quote that the quote creation answered with. *)
Lemma deliver_Success_inv (up : upstream)
    (api_key portal_id anthropic_key deal_id : string) (company_name : json)
    (texts : list string) (services : list Service) (total : Z) (n : nat)
    (quote_url : string) (cname : json) (t : Z) (names : list string) (n' : nat) :
  deliver up api_key portal_id anthropic_key deal_id company_name texts
    services total n = (Ret (Success quote_url cname t names), n') ->
  cname = company_name /\ t = total /\ names = name <$> services /\
  exists k quote quote_id,
    up k (hubspot POST "/crm/v3/objects/quotes") = Ret quote /\
    getitem quote "id" = Ret quote_id /\
    quote_url = "https://app.hubspot.com/contacts/" +:+ portal_id +:+
                "/record/0-115/" +:+ str quote_id.
Proof.
  unfold deliver. intros [(narrative & n1 & _ & H)|(msg & n1 & _ & H)]%try_Ret_inv;
    [|discriminate].
  unfold assemble in H.
  apply try_Ret_inv in H as [(url0 & n4 & Hq & H)|(msg & n4 & _ & H)]; [|discriminate].
  injection H as <- <- <- <- _. repeat split.
  unfold create_quote_and_line_items in Hq.
  apply bind_Ret_inv in Hq as (sku_to_id & k1 & _ & Hq).
  apply bind_Ret_inv in Hq as (quote & k2 & Hpost & Hq).
  apply bind_Ret_inv in Hq as (quote_id & k3 & Hid & Hq).
  apply bind_Ret_inv in Hq as ([] & k4 & _ & Hq).
  injection Hq as <- _. exists k1, quote, quote_id.
  unfold _hubspot_post, call in Hpost. unfold lift in Hid.
  injection Hpost as Hpost _. injection Hid as Hid _. done.
Qed.

(** In no transcript does any sku qualify exactly when the recommendation
    is empty. *)
Lemma recommend_services_empty (texts : list string) :
  all_skus texts = ∅ <-> fst (recommend_services texts) = [].
Proof.
  unfold recommend_services. split.
  - intros ->. reflexivity.
  - destruct (Nat.leb_spec 4 (size (all_skus texts))) as [H|H]; [discriminate|].
    cbn [fst]. intros Hnil. apply set_eq. intros k. split; [|set_solver].
    intros Hk. destruct (all_skus_in_catalog _ _ Hk) as (_ & s & Hs & <-).
    assert (s ∈ filter (fun s => sku s ∈ all_skus texts) SERVICES) as Hin
      by by apply list_elem_of_filter.
    rewrite Hnil in Hin. by apply elem_of_nil in Hin.
Qed.

(** C9, as the code has it. When no sku qualifies, so that
    [recommend_services] returns the empty selection, the orchestrator
    selects the single default service, the first catalog entry: Marketing
    Operations Consulting, an individual service priced below the bundle
    and not a low tier, no individual service being priced higher. Its
    price 3000 is the total; the run proceeds with exactly this selection,
    and a successful result reports it. *)
Theorem empty_recommendation_falls_back (up : upstream) (env : Env)
    (deal_url : string) (n : nat)
    (api_key portal_id anthropic_key deal_id : string) (company_name : json)
    (n2 : nat) (transcripts : list json) (texts : list string) (n3 : nat) :
  reaches_transcripts up env deal_url n api_key portal_id anthropic_key deal_id
    company_name n2 ->
  fetch_fathom_transcripts up api_key deal_id n2 = (Ret transcripts, n3) ->
  transcripts <> [] ->
  as_texts transcripts = Ret texts ->
  fst (recommend_services texts) = [] ->
  select_services texts = Ret ([MKTOPS], price MKTOPS) /\
  SERVICES !! 0 = Some MKTOPS /\
  sku MKTOPS <> sku BUNDLE /\ (price MKTOPS < price BUNDLE)%Z /\
  Forall (fun s => sku s <> sku BUNDLE -> (price s <= price MKTOPS)%Z) SERVICES /\
  run_workflow up env deal_url n
  = deliver up api_key portal_id anthropic_key deal_id company_name texts
      [MKTOPS] (price MKTOPS) n3 /\
  forall quote_url cname total names n',
    run_workflow up env deal_url n
    = (Ret (Success quote_url cname total names), n') ->
    total = 3000%Z /\ names = ["Marketing Operations Consulting"].
Proof.
  intros Hreach Hfetch Hne Htexts Hempty.
  assert (select_services texts = Ret ([MKTOPS], price MKTOPS)) as Hsel.
  { unfold select_services. destruct (recommend_services texts) as [services total].
    cbn [fst] in Hempty. by subst services. }
  pose proof (run_workflow_delivers _ _ _ _ _ _ _ _ _ _ Hreach _ _ _ _ _
                Hfetch Hne Htexts Hsel) as Hrun.
  split; [done|]. split; [done|]. split; [done|]. split; [done|].
  split; [apply (bool_decide_unpack _); by vm_compute|]. split; [done|].
  intros quote_url cname total names n' H. rewrite Hrun in H.
  by apply deliver_Success_inv in H as (_ & -> & -> & _).
Qed.

Lemma empty_recommendation_falls_back_witness :
  run_workflow quiet_upstream example_env example_url 0
  = deliver quiet_upstream "pat-na1" "123" "sk-ant" "456" (JStr "Acme")
      ["AI Meeting Summary: we talked about the weather.";
       "Generated by Fathom. A short call."]
      [MKTOPS] 3000 7.
Proof.
  destruct (empty_recommendation_falls_back quiet_upstream example_env
              example_url 0 "pat-na1" "123" "sk-ant" "456" (JStr "Acme") 4
              [JStr "AI Meeting Summary: we talked about the weather.";
               JStr "Generated by Fathom. A short call."]
              ["AI Meeting Summary: we talked about the weather.";
               "Generated by Fathom. A short call."] 7)
    as (_ & _ & _ & _ & _ & Hrun & _).
  - split; [by repeat split|]. split; [by vm_compute|].
    exists example_deal, 1. split; by vm_compute.
  - by vm_compute.
  - discriminate.
  - reflexivity.
  - by vm_compute.
  - exact Hrun.
Defined.

(** C9 as stated fails in its low tier. On two transcripts that touch no
    pain point the fallback selects Marketing Operations Consulting at 3000:
    no individual service of the catalog is priced higher, and four of the
    six are priced lower. *)
Lemma fallback_not_low_tier :
  select_services ["AI Meeting Summary: we talked about the weather.";
                   "Generated by Fathom. A short call."]
  = Ret ([MKTOPS], 3000%Z) /\
  Forall (fun s => sku s <> sku BUNDLE -> (price s <= price MKTOPS)%Z) SERVICES /\
  price <$> filter (fun s => (price s < price MKTOPS)%Z) SERVICES
  = [2000; 1500; 1500; 1500]%Z.
Proof.
  split; [by vm_compute|]. split; [|by vm_compute].
  apply (bool_decide_unpack _). by vm_compute.
Qed.

Example quiet_run_succeeds :
  run_workflow quiet_upstream example_env example_url 0
  = (Ret (Success "https://app.hubspot.com/contacts/123/record/0-115/777"
            (JStr "Acme") 3000 ["Marketing Operations Consulting"]), 13).
Proof. by vm_compute. Qed.

(** ** The CRM and sales-pipeline scenario *)

Lemma indicators_of_in_map (k : string) :
  k ∈ PAIN_POINT_MAP.*1 -> (k, indicators_of k) ∈ PAIN_POINT_MAP.
Proof.
  unfold PAIN_POINT_MAP at 1. cbn [fmap list_fmap fst].
  intros H. repeat (apply elem_of_cons in H as [->|H];
                    [apply (bool_decide_unpack _); by vm_compute|]).
  by apply elem_of_nil in H.
Qed.

Lemma crm_and_sales_all_skus (texts : list string) :
  texts <> [] -> Forall crm_and_sales_pain_only texts ->
  all_skus texts = {["CGO-CRM"; "CGO-SALESOPS"]}.
Proof.
  intros Hne Hall. apply set_eq. intros k. rewrite all_skus_spec. split.
  - intros (t & Ht & (inds & Hin & Hh)%recommend_from_transcript_spec).
    rewrite Forall_forall in Hall. destruct (Hall t Ht) as (_ & _ & Hothers).
    rewrite Forall_forall in Hothers.
    destruct (Hothers _ Hin) as [Hk|[Hk|Hk]]; cbn [fst snd] in Hk;
      [set_solver | set_solver | lia].
  - destruct texts as [|t ts]; [done|].
    apply Forall_cons in Hall as [(Hcrm & Hsales & _) _].
    intros Hk. exists t. split; [by left|].
    apply recommend_from_transcript_spec. exists (indicators_of k).
    apply elem_of_union in Hk as [->%elem_of_singleton| ->%elem_of_singleton].
    + split; [|lia]. apply indicators_of_in_map, (bool_decide_unpack _). by vm_compute.
    + split; [|lia]. apply indicators_of_in_map, (bool_decide_unpack _). by vm_compute.
Qed.

(** C7, as stated, fails. On two transcripts with two CRM and two
    sales-pipeline indicators each, and no other, the successful run names
    the services in catalog order, Sales Operations Consulting first; and
    when the transcripts also hit indicators of two further skus, the
    selection is the bundle. *)
Lemma crm_and_sales_scenario_order :
  crm_and_sales_pain_only example_notes_1 /\
  crm_and_sales_pain_only example_notes_2 /\
  run_workflow example_upstream example_env example_url 0
  = (Ret (Success "https://app.hubspot.com/contacts/123/record/0-115/777"
            (JStr "Acme") 5000
            ["Sales Operations Consulting"; "CRM Management"]), 15) /\
  ["Sales Operations Consulting"; "CRM Management"]
  <> ["CRM Management"; "Sales Operations Consulting"] /\
  let t := "AI Meeting Summary: crm duplicates, pipeline quota, clay, spam" in
  (2 <= hit_count (indicators_of "CGO-CRM") t)%nat /\
  (2 <= hit_count (indicators_of "CGO-SALESOPS") t)%nat /\
  recommend_services [t; t] = ([BUNDLE], 12000%Z).
Proof.
  assert (forall t, bool_decide (crm_and_sales_pain_only t) = true ->
                    crm_and_sales_pain_only t) as Hdec
    by (intros t; apply bool_decide_eq_true_1).
  split; [apply Hdec; by vm_compute|]. split; [apply Hdec; by vm_compute|].
  split; [by vm_compute|]. split; [discriminate|].
  cbv zeta. split; [vm_compute; lia|]. split; [vm_compute; lia|]. by vm_compute.
Qed.

(** C7, as the code has it. For a deal with two transcripts that each hit
    at least two CRM and at least two sales-pipeline indicators, and no
    indicator of another sku, the recommendation is Sales Operations
    Consulting and CRM Management, in catalog order, with total 5000; the
    run proceeds with this selection, and a successful result carries
    total 5000, the two names in that order, and the quote URL
    https://app.hubspot.com/contacts/{tenant}/record/0-115/{quoteId} for the
    id that the quote creation answered with. *)
Theorem crm_and_sales_scenario (up : upstream) (env : Env)
    (deal_url : string) (n : nat)
    (api_key portal_id anthropic_key deal_id : string) (company_name : json)
    (n2 : nat) (t1 t2 : string) (n3 : nat) :
  reaches_transcripts up env deal_url n api_key portal_id anthropic_key deal_id
    company_name n2 ->
  fetch_fathom_transcripts up api_key deal_id n2 = (Ret [JStr t1; JStr t2], n3) ->
  crm_and_sales_pain_only t1 ->
  crm_and_sales_pain_only t2 ->
  recommend_services [t1; t2] = ([SALESOPS; CRM], 5000%Z) /\
  run_workflow up env deal_url n
  = deliver up api_key portal_id anthropic_key deal_id company_name [t1; t2]
      [SALESOPS; CRM] 5000 n3 /\
  forall quote_url cname total names n',
    run_workflow up env deal_url n
    = (Ret (Success quote_url cname total names), n') ->
    total = 5000%Z /\
    names = ["Sales Operations Consulting"; "CRM Management"] /\
    exists k quote quote_id,
      up k (hubspot POST "/crm/v3/objects/quotes") = Ret quote /\
      getitem quote "id" = Ret quote_id /\
      quote_url = "https://app.hubspot.com/contacts/" +:+ portal_id +:+
                  "/record/0-115/" +:+ str quote_id.
Proof.
  intros Hreach Hfetch H1 H2.
  assert (recommend_services [t1; t2] = ([SALESOPS; CRM], 5000%Z)) as Hrec.
  { unfold recommend_services.
    rewrite (crm_and_sales_all_skus [t1; t2]); [by vm_compute|done|].
    constructor; [done|]. constructor; [done|]. constructor. }
  assert (select_services [t1; t2] = Ret ([SALESOPS; CRM], 5000%Z)) as Hsel
    by (unfold select_services; by rewrite Hrec).
  pose proof (run_workflow_delivers _ _ _ _ _ _ _ _ _ _ Hreach _ _ _ _ _
                Hfetch ltac:(done) eq_refl Hsel) as Hrun.
  split; [done|]. split; [done|].
  intros quote_url cname total names n' H. rewrite Hrun in H.
  apply deliver_Success_inv in H as (_ & -> & -> & Hurl). by repeat split.
Qed.

Lemma crm_and_sales_scenario_witness :
  recommend_services [example_notes_1; example_notes_2] = ([SALESOPS; CRM], 5000%Z).
Proof.
  assert (forall t, bool_decide (crm_and_sales_pain_only t) = true ->
                    crm_and_sales_pain_only t) as Hdec
    by (intros t; apply bool_decide_eq_true_1).
  destruct (crm_and_sales_scenario example_upstream example_env example_url 0
              "pat-na1" "123" "sk-ant" "456" (JStr "Acme") 4
              example_notes_1 example_notes_2 7) as (Hrec & _).
  - split; [by repeat split|]. split; [by vm_compute|].
    exists example_deal, 1. split; by vm_compute.
  - by vm_compute.
  - apply Hdec. by vm_compute.
  - apply Hdec. by vm_compute.
  - exact Hrec.
Defined.

(** * Further properties *)

(** ** The deal URL parser *)

Lemma append_nil_r (s : string) : s +:+ "" = s.
Proof. induction s as [|c s IH]; [done | by rewrite append_cons, IH]. Qed.

Lemma drop_literal_spec (p s r : string) :
  drop_literal p s = Some r <-> s = p +:+ r.
Proof.
  revert s. induction p as [|a p IH]; intros s; cbn [drop_literal].
  - rewrite append_nil_l. split; [by intros [= ->] | by intros ->].
  - destruct s as [|b s]; [by split|]. rewrite append_cons.
    destruct (Ascii.eqb_spec a b) as [->|Hab].
    + rewrite IH. split; [by intros -> | by intros [= ->]].
    + split; [done | intros [= -> _]; by destruct Hab].
Qed.

Lemma span_digits_spec (s ds rest : string) :
  span_digits s = (ds, rest) ->
  s = ds +:+ rest /\ all_digits ds = true /\ starts_with_digit rest = false.
Proof.
  revert ds rest. induction s as [|c s IH]; intros ds rest; cbn [span_digits].
  - by intros [= <- <-].
  - destruct (is_digit c) eqn:Hc.
    + destruct (span_digits s) as [ds' rest'].
      intros [= <- <-]. destruct (IH _ _ eq_refl) as (-> & Hd & Hr).
      rewrite append_cons. cbn [all_digits]. by rewrite Hc, Hd.
    + intros [= <- <-]. rewrite append_nil_l. cbn [starts_with_digit]. by rewrite Hc.
Qed.

Lemma span_digits_rest (s : string) :
  starts_with_digit s = false -> span_digits s = ("", s).
Proof. destruct s as [|c s]; cbn; [done|]. by intros ->. Qed.

(** A run of digits in front is taken whole, and the run goes on into what
    follows. *)
Lemma span_digits_app (ds s : string) :
  all_digits ds = true ->
  span_digits (ds +:+ s) = (ds +:+ fst (span_digits s), snd (span_digits s)).
Proof.
  induction ds as [|c ds IH]; cbn [all_digits].
  - intros _. rewrite !append_nil_l. by destruct (span_digits s).
  - intros [Hc Hd]%andb_true_iff. rewrite !append_cons. cbn [span_digits].
    by rewrite Hc, (IH Hd).
Qed.

Lemma match_deal_path_sound (s portal deal : string) :
  match_deal_path s = Some (portal, deal) ->
  exists post,
    s = deal_path portal deal +:+ post /\ is_id portal /\ is_id deal /\
    starts_with_digit post = false.
Proof.
  unfold match_deal_path.
  destruct (drop_literal "contacts/" s) as [s1|] eqn:E1; [|done].
  apply drop_literal_spec in E1 as ->.
  destruct (span_digits s1) as [p s2] eqn:E2.
  apply span_digits_spec in E2 as (-> & Hp & _).
  destruct (String.eqb_spec p "") as [|Hpne]; [done|].
  destruct (drop_literal "/record/0-3/" s2) as [s3|] eqn:E3; [|done].
  apply drop_literal_spec in E3 as ->.
  destruct (span_digits s3) as [d post] eqn:E4.
  apply span_digits_spec in E4 as (-> & Hd & Hpost).
  destruct (String.eqb_spec d "") as [|Hdne]; [done|].
  intros [= <- <-]. exists post. unfold deal_path, is_id.
  by rewrite !append_assoc.
Qed.

(** At an occurrence of the path the pattern matches; the deal id runs on
    through the digits that follow. *)
Lemma match_deal_path_complete (portal deal post : string) :
  is_id portal -> is_id deal ->
  match_deal_path (deal_path portal deal +:+ post)
  = Some (portal, deal +:+ fst (span_digits post)).
Proof.
  intros [Hp Hpne] [Hd Hdne]. unfold match_deal_path, deal_path.
  rewrite !append_assoc.
  rewrite (proj2 (drop_literal_spec "contacts/" _ _) eq_refl).
  rewrite (span_digits_app portal _ Hp).
  rewrite span_digits_rest by done. cbn [fst snd].
  replace (portal +:+ "") with portal
    by (clear; induction portal as [|c p IH]; [done | by rewrite append_cons, <- IH]).
  rewrite (proj2 (String.eqb_neq _ _) Hpne).
  rewrite (proj2 (drop_literal_spec "/record/0-3/" _ _) eq_refl).
  rewrite (span_digits_app deal _ Hd). cbn [fst snd].
  destruct (String.eqb_spec (deal +:+ fst (span_digits post)) "") as [He|]; [|done].
  destruct deal; [done | discriminate].
Qed.

Lemma parse_deal_url_app (pre s : string) (r : string * string) :
  match_deal_path s = Some r -> exists r', parse_deal_url (pre +:+ s) = Some r'.
Proof.
  intros Hs. induction pre as [|c pre IH].
  - rewrite append_nil_l. exists r. destruct s; cbn [parse_deal_url]; by rewrite Hs.
  - rewrite append_cons. cbn [parse_deal_url].
    destruct (match_deal_path (String c (pre +:+ s))); [eauto | exact IH].
Qed.

Lemma parse_deal_url_occurs (url portal deal : string) :
  parse_deal_url url = Some (portal, deal) ->
  exists pre post,
    url = pre +:+ deal_path portal deal +:+ post /\ is_id portal /\ is_id deal.
Proof.
  induction url as [|c url IH]; cbn [parse_deal_url].
  - destruct (match_deal_path "") eqn:E; [|done]. intros [= ->].
    apply match_deal_path_sound in E as (post & H & ?). discriminate.
  - destruct (match_deal_path (String c url)) as [r|] eqn:E.
    + intros [= ->]. apply match_deal_path_sound in E as (post & -> & Hp & Hd & _).
      exists "", post. by rewrite append_nil_l.
    + intros (pre & post & -> & Hp & Hd)%IH.
      exists (String c pre), post. by rewrite append_cons.
Qed.

(** X1. Whatever [parse_deal_url] returns was read off the reference: the
    text splits around the path [contacts/P/record/0-3/D] with [P] and [D]
    the returned ids, both non-empty runs of digits, [D] taken up to the
    first non-digit, and no match starts further left. *)
Theorem parse_deal_url_sound (url portal deal : string) :
  parse_deal_url url = Some (portal, deal) ->
  exists pre post,
    url = pre +:+ deal_path portal deal +:+ post /\
    is_id portal /\ is_id deal /\ starts_with_digit post = false /\
    forall pre1 c pre2,
      pre = pre1 +:+ String c pre2 ->
      match_deal_path (String c pre2 +:+ deal_path portal deal +:+ post) = None.
Proof.
  induction url as [|c url IH]; cbn [parse_deal_url].
  - destruct (match_deal_path "") eqn:E; [|done]. intros [= ->].
    apply match_deal_path_sound in E as (post & H & ?). discriminate.
  - destruct (match_deal_path (String c url)) as [r|] eqn:E.
    + intros [= ->]. apply match_deal_path_sound in E as (post & -> & Hp & Hd & Hpost).
      exists "", post. rewrite append_nil_l.
      split; [done|]. split; [done|]. split; [done|]. split; [done|].
      intros [|??] ???; discriminate.
    + intros (pre & post & -> & Hp & Hd & Hpost & Hleft)%IH.
      exists (String c pre), post. rewrite append_cons.
      split; [done|]. split; [done|]. split; [done|]. split; [done|].
      intros [|a pre1] c' pre2; rewrite ?append_nil_l, ?append_cons.
      * by intros [= <- <-].
      * intros [= _ ->]. rewrite <- append_cons. by eapply Hleft.
Qed.

Lemma parse_deal_url_sound_witness :
  exists pre post,
    example_url = pre +:+ deal_path "123" "456" +:+ post /\
    is_id "123" /\ is_id "456" /\ starts_with_digit post = false /\
    forall pre1 c pre2,
      pre = pre1 +:+ String c pre2 ->
      match_deal_path (String c pre2 +:+ deal_path "123" "456" +:+ post) = None.
Proof. apply parse_deal_url_sound. by vm_compute. Defined.

(** X2. [parse_deal_url] finds no deal exactly when the path
    [contacts/P/record/0-3/D], with [P] and [D] non-empty runs of digits,
    occurs nowhere in the reference. *)
Theorem parse_deal_url_None_iff (url : string) :
  parse_deal_url url = None <->
  ~ exists pre portal deal post,
      url = pre +:+ deal_path portal deal +:+ post /\ is_id portal /\ is_id deal.
Proof.
  split.
  - intros Hnone (pre & p & d & post & -> & Hp & Hd).
    destruct (parse_deal_url_app pre _ _ (match_deal_path_complete p d post Hp Hd))
      as [r' Hr']. congruence.
  - intros Hno. destruct (parse_deal_url url) as [[p d]|] eqn:E; [|done].
    destruct Hno. apply parse_deal_url_occurs in E as (pre & post & ? & ? & ?).
    by exists pre, p, d, post.
Qed.

Lemma parse_deal_url_skip (c : ascii) (s : string) :
  match_deal_path (String c s) = None ->
  parse_deal_url (String c s) = parse_deal_url s.
Proof. intros H. cbn [parse_deal_url]. by rewrite H. Qed.

Lemma parse_deal_url_here (s : string) (r : string * string) :
  match_deal_path s = Some r -> parse_deal_url s = Some r.
Proof. intros H. destruct s; cbn [parse_deal_url]; by rewrite H. Qed.

Lemma match_deal_path_head (c : ascii) (s : string) :
  Ascii.eqb "c" c = false -> match_deal_path (String c s) = None.
Proof. intros H. unfold match_deal_path. cbn [drop_literal]. by rewrite H. Qed.

(** No match of the path starts inside the host part of a deal link. *)
Lemma parse_deal_url_skip_host (s : string) :
  parse_deal_url ("https://app.hubspot.com/" +:+ s) = parse_deal_url s.
Proof.
  rewrite !append_cons, append_nil_l.
  repeat (rewrite parse_deal_url_skip;
          [| first [ by apply match_deal_path_head
                   | unfold match_deal_path; cbn [drop_literal Ascii.eqb Bool.eqb];
                     reflexivity ]]).
  reflexivity.
Qed.

(** X3. A deal link of the form HubSpot shows,
    [https://app.hubspot.com/contacts/P/record/0-3/D] with [P] and [D]
    non-empty runs of digits, followed by anything that does not start with
    a digit, parses to exactly [(P, D)]. *)
Theorem parse_deal_url_link (portal deal post : string) :
  is_id portal -> is_id deal -> starts_with_digit post = false ->
  parse_deal_url ("https://app.hubspot.com/" +:+ deal_path portal deal +:+ post)
  = Some (portal, deal).
Proof.
  intros Hp Hd Hpost. rewrite parse_deal_url_skip_host.
  apply parse_deal_url_here.
  rewrite (match_deal_path_complete portal deal post Hp Hd).
  rewrite span_digits_rest by done. cbn [fst]. by rewrite append_nil_r.
Qed.

Lemma parse_deal_url_link_witness :
  parse_deal_url ("https://app.hubspot.com/" +:+ deal_path "21656838" "12345" +:+ " now")
  = Some ("21656838", "12345").
Proof. apply parse_deal_url_link; by vm_compute. Defined.

(** ** Stripping whitespace *)

Lemma lstrip_split (s : string) :
  exists w, all_space w = true /\ s = w +:+ lstrip s.
Proof.
  induction s as [|c s (w & Hw & IH)]; [by exists ""|]. cbn [lstrip].
  destruct (is_space c) eqn:Hc.
  - exists (String c w). cbn [all_space]. rewrite Hc, Hw, append_cons. by rewrite <- IH.
  - by exists "".
Qed.

Lemma rstrip_split (s : string) :
  exists w, all_space w = true /\ s = rstrip s +:+ w.
Proof.
  induction s as [|c s (w & Hw & IH)]; [by exists ""|]. cbn [rstrip].
  destruct (rstrip s) as [|a r] eqn:Hr.
  - rewrite append_nil_l in IH. subst s. destruct (is_space c) eqn:Hc.
    + exists (String c w). cbn [all_space]. by rewrite Hc, Hw.
    + by exists w.
  - exists w. split; [done|]. rewrite append_cons. by rewrite <- IH.
Qed.

Lemma lstrip_no_leading (s : string) : starts_with_space (lstrip s) = false.
Proof.
  induction s as [|c s IH]; [done|]. cbn [lstrip].
  destruct (is_space c) eqn:Hc; [done|]. cbn. by rewrite Hc.
Qed.

Lemma rstrip_no_trailing (s : string) : ends_with_space (rstrip s) = false.
Proof.
  induction s as [|c s IH]; [done|]. cbn [rstrip].
  destruct (rstrip s) as [|a r] eqn:Hr.
  - destruct (is_space c) eqn:Hc; [done|]. cbn. by rewrite Hc.
  - exact IH.
Qed.

Lemma rstrip_keeps_head (s : string) :
  starts_with_space s = false -> starts_with_space (rstrip s) = false.
Proof.
  destruct s as [|c s]; [done|]. cbn [starts_with_space rstrip]. intros Hc.
  destruct (rstrip s); [by rewrite Hc | done].
Qed.

Lemma lstrip_id (s : string) : starts_with_space s = false -> lstrip s = s.
Proof. destruct s as [|c s]; cbn; [done|]. by intros ->. Qed.

Lemma rstrip_id (s : string) : ends_with_space s = false -> rstrip s = s.
Proof.
  induction s as [|c s IH]; [done|]. cbn [ends_with_space rstrip].
  destruct s as [|a s].
  - cbn. by intros ->.
  - intros H. rewrite (IH H). done.
Qed.

(** [strip] removes whitespace at the two ends and nothing else: the
    string is a run of whitespace, the stripped string, and a run of
    whitespace; the stripped string neither starts nor ends with
    whitespace, and stripping it again changes nothing. *)
Theorem strip_spec (s : string) :
  (exists pre post,
     all_space pre = true /\ all_space post = true /\
     s = pre +:+ strip s +:+ post) /\
  starts_with_space (strip s) = false /\
  ends_with_space (strip s) = false /\
  strip (strip s) = strip s.
Proof.
  assert (starts_with_space (strip s) = false) as Hhead
    by apply rstrip_keeps_head, lstrip_no_leading.
  assert (ends_with_space (strip s) = false) as Hlast
    by apply rstrip_no_trailing.
  split; [|split; [done|split; [done|]]].
  - destruct (lstrip_split s) as (pre & Hpre & Hs).
    destruct (rstrip_split (lstrip s)) as (post & Hpost & Hl).
    exists pre, post. unfold strip. by rewrite <- Hl.
  - unfold strip at 1. by rewrite (lstrip_id _ Hhead), (rstrip_id _ Hlast).
Qed.

(** ** The narrative call *)

Ltac char_case c := destruct c as [[] [] [] [] [] [] [] []]; try reflexivity.

Lemma match_text {A} (ty : json) (x y : A) :
  match ty with JStr "text" => x | _ => y end = if is_text ty then x else y.
Proof.
  destruct ty as [| | |s| |]; try reflexivity. cbn [is_text].
  destruct (String.eqb_spec s "text") as [->|Hs]; [reflexivity|].
  destruct s as [|c1 s]; [reflexivity|]. char_case c1.
  destruct s as [|c2 s]; [reflexivity|]. char_case c2.
  destruct s as [|c3 s]; [reflexivity|]. char_case c3.
  destruct s as [|c4 s]; [reflexivity|]. char_case c4.
  destruct s as [|c5 s]; [done | reflexivity].
Qed.

Lemma join_text_blocks_spec (blocks : list json) (acc text : string) :
  join_text_blocks blocks acc = Ret text -> text = acc +:+ text_of_blocks blocks.
Proof.
  revert acc. induction blocks as [|b blocks IH]; intros acc;
    cbn [join_text_blocks text_of_blocks].
  - intros [= <-]. by rewrite append_nil_r.
  - destruct (get b "type" JNull) as [ty|e] eqn:Ety; cbn [rbind]; [|done].
    rewrite match_text.
    destruct (get b "text" (JStr "")) as [t|e] eqn:Et.
    + destruct (is_text ty); cbn [rbind].
      * destruct t; try done. intros H%IH. by rewrite H, append_assoc.
      * destruct t; apply IH.
    + destruct b; try discriminate.
Qed.

(** X4. What [_call_claude] returns after its one call is the text fields
    of the answer's content blocks of type [text], joined in order and
    stripped: it neither starts nor ends with whitespace. *)
Theorem call_claude_text (up : upstream) (api_key text : string) (n n' : nat) :
  _call_claude up api_key n = (Ret text, n') ->
  n' = S n /\
  starts_with_space text = false /\ ends_with_space text = false /\
  exists data content blocks,
    up n (mkRequest POST "https://api.anthropic.com/v1/messages") = Ret data /\
    get data "content" (JArr []) = Ret content /\
    iter content = Ret blocks /\
    text = strip (text_of_blocks blocks).
Proof.
  unfold _call_claude. intros (data & n1 & Hcall & H)%bind_Ret_inv.
  unfold call in Hcall. injection Hcall as Hdata <-.
  unfold lift in H. injection H as H <-.
  destruct (get data "content" (JArr [])) as [content|] eqn:Ec; [|done].
  cbn [rbind] in H. destruct (iter content) as [blocks|] eqn:Eb; [|done].
  cbn [rbind] in H. destruct (join_text_blocks blocks "") as [joined|] eqn:Ej; [|done].
  cbn [rbind] in H. injection H as <-.
  apply join_text_blocks_spec in Ej. rewrite append_nil_l in Ej. subst joined.
  destruct (strip_spec (text_of_blocks blocks)) as (_ & Hhead & Hlast & _).
  split; [done|]. split; [done|]. split; [done|]. by exists data, content, blocks.
Qed.

Lemma call_claude_text_witness :
  8 = S 7 /\
  starts_with_space "<h3>Plan</h3>" = false /\
  ends_with_space "<h3>Plan</h3>" = false /\
  exists data content blocks,
    example_upstream 7 (mkRequest POST "https://api.anthropic.com/v1/messages")
    = Ret data /\
    get data "content" (JArr []) = Ret content /\
    iter content = Ret blocks /\
    "<h3>Plan</h3>" = strip (text_of_blocks blocks).
Proof. apply (call_claude_text example_upstream "sk-ant"). by vm_compute. Defined.

(** ** The handler's link extraction *)

Lemma match_deal_link_sound (s u : string) :
  match_deal_link s = Some u ->
  exists portal deal post,
    s = u +:+ post /\ u = deal_link portal deal /\ is_id portal /\ is_id deal /\
    starts_with_digit post = false.
Proof.
  unfold match_deal_link.
  destruct (drop_literal "https://app.hubspot.com/" s) as [s1|] eqn:E1; [|done].
  apply drop_literal_spec in E1 as ->.
  destruct (match_deal_path s1) as [[p d]|] eqn:E2; [|done].
  apply match_deal_path_sound in E2 as (post & -> & Hp & Hd & Hpost).
  intros [= <-]. exists p, d, post. unfold deal_link, deal_path.
  by rewrite !append_assoc.
Qed.

(** At a deal link the pattern matches; the deal id runs on through the
    digits that follow. *)
Lemma match_deal_link_complete (portal deal post : string) :
  is_id portal -> is_id deal ->
  match_deal_link (deal_link portal deal +:+ post)
  = Some (deal_link portal (deal +:+ fst (span_digits post))).
Proof.
  intros Hp Hd. unfold match_deal_link, deal_link. rewrite append_assoc.
  rewrite (proj2 (drop_literal_spec "https://app.hubspot.com/" _ _) eq_refl).
  by rewrite (match_deal_path_complete portal deal post Hp Hd).
Qed.

(** The search finds a link wherever one occurs. *)
Lemma search_deal_link_app (pre s u : string) :
  match_deal_link s = Some u -> exists u', search_deal_link (pre +:+ s) = Some u'.
Proof.
  intros Hs. induction pre as [|c pre IH].
  - rewrite append_nil_l. exists u. destruct s; cbn [search_deal_link]; by rewrite Hs.
  - rewrite append_cons. cbn [search_deal_link].
    destruct (match_deal_link (String c (pre +:+ s))); [eauto | exact IH].
Qed.

(** What the search returns is the leftmost match, taken up to the first
    non-digit. *)
Lemma search_deal_link_sound (text u : string) :
  search_deal_link text = Some u ->
  exists pre portal deal post,
    text = pre +:+ u +:+ post /\ u = deal_link portal deal /\
    is_id portal /\ is_id deal /\ starts_with_digit post = false /\
    forall pre1 c pre2,
      pre = pre1 +:+ String c pre2 ->
      match_deal_link (String c pre2 +:+ u +:+ post) = None.
Proof.
  induction text as [|c text IH]; cbn [search_deal_link].
  - destruct (match_deal_link "") eqn:E; [|done]. intros [= ->].
    apply match_deal_link_sound in E as (p & d & post & H & -> & ? & ? & ?).
    discriminate.
  - destruct (match_deal_link (String c text)) as [u0|] eqn:E.
    + intros [= ->].
      apply match_deal_link_sound in E as (p & d & post & H & Hu & Hp & Hd & Hpost).
      exists "", p, d, post. rewrite append_nil_l.
      repeat (split; [done|]). intros [|??] ???; discriminate.
    + intros (pre & p & d & post & -> & Hu & Hp & Hd & Hpost & Hleft)%IH.
      exists (String c pre), p, d, post. rewrite append_cons.
      repeat (split; [done|]).
      intros [|a pre1] c' pre2; rewrite ?append_nil_l, ?append_cons.
      * by intros [= <- <-].
      * intros [= _ ->]. rewrite <- append_cons. by eapply Hleft.
Qed.

(** X5. When the command text holds a full deal link,
    [https://app.hubspot.com/contacts/P/record/0-3/D] with [P] and [D]
    non-empty runs of digits, the handler passes on a deal link cut out of
    the text: the leftmost one, taken up to the first non-digit, and the
    workflow parses it to that link's own tenant and deal id. *)
Theorem parse_deal_url_from_text_link
    (text pre0 portal0 deal0 post0 : string) :
  text = pre0 +:+ deal_link portal0 deal0 +:+ post0 ->
  is_id portal0 -> is_id deal0 ->
  exists u pre portal deal post,
    parse_deal_url_from_text text = Some u /\
    text = pre +:+ u +:+ post /\ u = deal_link portal deal /\
    is_id portal /\ is_id deal /\ starts_with_digit post = false /\
    (forall pre1 c pre2,
       pre = pre1 +:+ String c pre2 ->
       match_deal_link (String c pre2 +:+ u +:+ post) = None) /\
    parse_deal_url u = Some (portal, deal).
Proof.
  intros -> Hp0 Hd0.
  destruct (search_deal_link_app pre0 _ _
              (match_deal_link_complete portal0 deal0 post0 Hp0 Hd0)) as [u Hu].
  exists u. unfold parse_deal_url_from_text. rewrite Hu.
  apply search_deal_link_sound in Hu
    as (pre & p & d & post & Htext & -> & Hp & Hd & Hpost & Hleft).
  exists pre, p, d, post. repeat (split; [done|]).
  unfold deal_link. rewrite parse_deal_url_skip_host.
  apply parse_deal_url_here.
  rewrite <- (append_nil_r (deal_path p d)) at 1.
  rewrite (match_deal_path_complete p d "" Hp Hd). cbn. by rewrite append_nil_r.
Qed.

Lemma parse_deal_url_from_text_link_witness :
  exists u pre portal deal post,
    parse_deal_url_from_text example_url = Some u /\
    example_url = pre +:+ u +:+ post /\ u = deal_link portal deal /\
    is_id portal /\ is_id deal /\ starts_with_digit post = false /\
    (forall pre1 c pre2,
       pre = pre1 +:+ String c pre2 ->
       match_deal_link (String c pre2 +:+ u +:+ post) = None) /\
    parse_deal_url u = Some (portal, deal).
Proof.
  apply (parse_deal_url_from_text_link example_url "see " "123" "456" " please");
    by vm_compute.
Defined.

Lemma is_space_not_c (c : ascii) : is_space c = true -> Ascii.eqb "c" c = false.
Proof. destruct c as [[] [] [] [] [] [] [] []]; by vm_compute. Qed.

Lemma is_space_not_digit (c : ascii) : is_space c = true -> is_digit c = false.
Proof. destruct c as [[] [] [] [] [] [] [] []]; by vm_compute. Qed.

Lemma parse_deal_url_leading_space (w s : string) :
  all_space w = true -> parse_deal_url (w +:+ s) = parse_deal_url s.
Proof.
  induction w as [|c w IH]; [done|]. cbn [all_space].
  intros [Hc Hw]%andb_true_iff. rewrite append_cons.
  rewrite parse_deal_url_skip; [by apply IH|].
  by apply match_deal_path_head, is_space_not_c.
Qed.

Lemma span_digits_trailing_space (t w : string) :
  all_space w = true ->
  span_digits (t +:+ w) = (fst (span_digits t), snd (span_digits t) +:+ w).
Proof.
  intros Hw. induction t as [|c t IH].
  - rewrite append_nil_l. destruct w as [|a w]; [done|].
    cbn [all_space] in Hw. apply andb_true_iff in Hw as [Ha _].
    cbn [span_digits]. by rewrite (is_space_not_digit _ Ha).
  - rewrite append_cons. cbn [span_digits]. rewrite IH.
    destruct (is_digit c); [|done]. by destruct (span_digits t).
Qed.

(** A literal without whitespace is dropped from the text alone, not from
    the whitespace after it. *)
Lemma drop_literal_trailing_space (lit t w : string) :
  (forall pre c post, lit = pre +:+ String c post -> is_space c = false) ->
  all_space w = true ->
  drop_literal lit (t +:+ w) = (fun r => r +:+ w) <$> drop_literal lit t.
Proof.
  intros Hlit Hw. revert t.
  induction lit as [|a lit IH]; intros t; cbn [drop_literal]; [done|].
  assert (is_space a = false) as Ha by (by apply (Hlit "" a lit)).
  destruct t as [|b t].
  - rewrite append_nil_l. destruct w as [|b w]; [done|].
    cbn [all_space] in Hw. apply andb_true_iff in Hw as [Hb _].
    destruct (Ascii.eqb_spec a b) as [->|]; [congruence | done].
  - rewrite append_cons. destruct (Ascii.eqb a b); [|done].
    apply IH. intros pre c post ->. by apply (Hlit (String a pre) c post).
Qed.

Lemma literal_no_space (lit : string) :
  forallb (fun c => negb (is_space c)) (list_ascii_of_string lit) = true ->
  forall pre c post, lit = pre +:+ String c post -> is_space c = false.
Proof.
  intros H pre c post ->. revert H. induction pre as [|a pre IH].
  - rewrite append_nil_l. cbn. by intros [?%negb_true_iff _]%andb_true_iff.
  - rewrite append_cons. cbn [list_ascii_of_string forallb].
    intros [_ ?]%andb_true_iff. by apply IH.
Qed.

Lemma match_deal_path_trailing_space (t w : string) :
  all_space w = true -> match_deal_path (t +:+ w) = match_deal_path t.
Proof.
  intros Hw. unfold match_deal_path.
  rewrite (drop_literal_trailing_space "contacts/" t w); [|by apply literal_no_space|done].
  destruct (drop_literal "contacts/" t) as [s1|]; [|done]. cbn [fmap option_fmap option_map].
  rewrite (span_digits_trailing_space s1 w Hw).
  destruct (span_digits s1) as [p s2]. cbn [fst snd].
  destruct (String.eqb p ""); [done|].
  rewrite (drop_literal_trailing_space "/record/0-3/" s2 w);
    [|by apply literal_no_space|done].
  destruct (drop_literal "/record/0-3/" s2) as [s3|]; [|done].
  cbn [fmap option_fmap option_map].
  rewrite (span_digits_trailing_space s3 w Hw). by destruct (span_digits s3).
Qed.

Lemma parse_deal_url_trailing_space (t w : string) :
  all_space w = true -> parse_deal_url (t +:+ w) = parse_deal_url t.
Proof.
  intros Hw. induction t as [|c t IH].
  - rewrite append_nil_l, <- (append_nil_r w). by apply parse_deal_url_leading_space.
  - rewrite append_cons. cbn [parse_deal_url].
    rewrite <- append_cons, (match_deal_path_trailing_space _ _ Hw).
    by rewrite IH.
Qed.

Lemma parse_deal_url_strip (text : string) :
  parse_deal_url (strip text) = parse_deal_url text.
Proof.
  destruct (strip_spec text) as ((pre & post & Hpre & Hpost & Htext) & _).
  rewrite Htext at 2.
  by rewrite (parse_deal_url_leading_space _ _ Hpre),
    (parse_deal_url_trailing_space _ _ Hpost).
Qed.

(** X6. When the command text holds no full deal link, the handler passes
    on the stripped text, or nothing when the text is all whitespace, and
    the stripping does not change what the workflow parses: the stripped
    text parses to the same ids, or fails to parse, as the text itself. *)
Theorem parse_deal_url_from_text_plain (text : string) :
  search_deal_link text = None ->
  parse_deal_url (strip text) = parse_deal_url text /\
  (strip text = "" ->
     parse_deal_url_from_text text = None /\ parse_deal_url text = None) /\
  (strip text <> "" -> parse_deal_url_from_text text = Some (strip text)).
Proof.
  intros H. unfold parse_deal_url_from_text. rewrite H.
  split; [apply parse_deal_url_strip|]. split.
  - intros He. rewrite He. split; [done|].
    by rewrite <- parse_deal_url_strip, He.
  - intros Hne. by rewrite (proj2 (String.eqb_neq _ _) Hne).
Qed.

Lemma parse_deal_url_from_text_plain_witness :
  parse_deal_url (strip "  contacts/123/record/0-3/456 ")
  = parse_deal_url "  contacts/123/record/0-3/456 ".
Proof.
  apply (parse_deal_url_from_text_plain "  contacts/123/record/0-3/456 ").
  by vm_compute.
Defined.

(** ** More on the recommendation *)

Lemma all_skus_same_transcripts (ts ts' : list string) :
  (forall t, t ∈ ts <-> t ∈ ts') -> all_skus ts = all_skus ts'.
Proof.
  intros H. apply set_eq. intros k. rewrite !all_skus_spec.
  split; intros (t & Ht & Hk); exists t; (split; [by apply H | done]).
Qed.

(** X7. The recommendation depends on which transcripts there are, not on
    their order or on repetitions: two transcript lists with the same
    members get the same services and total. *)
Theorem recommend_services_same_transcripts (ts ts' : list string) :
  (forall t, t ∈ ts <-> t ∈ ts') ->
  recommend_services ts = recommend_services ts'.
Proof.
  intros H. unfold recommend_services. by rewrite (all_skus_same_transcripts _ _ H).
Qed.

Lemma recommend_services_same_transcripts_witness :
  recommend_services ["crm"; "clay"; "crm"] = recommend_services ["clay"; "crm"].
Proof.
  apply recommend_services_same_transcripts. intros t.
  rewrite !elem_of_cons, !elem_of_nil. tauto.
Defined.

Lemma all_skus_app (ts ts' : list string) :
  all_skus (ts ++ ts') = all_skus ts ∪ all_skus ts'.
Proof.
  apply set_eq. intros k. rewrite elem_of_union, !all_skus_spec. split.
  - intros (t & [Ht|Ht]%elem_of_app & Hk); [left | right]; by exists t.
  - intros [(t & Ht & Hk)|(t & Ht & Hk)]; exists t; (split; [|done]);
      apply elem_of_app; [by left | by right].
Qed.

(** X8. Further transcripts only add qualifying skus, and once four skus
    qualify the bundle stays: with the bundle recommended for a transcript
    list, it is recommended for every list that extends it. *)
Theorem recommend_services_bundle_stays (ts before after : list string) :
  recommend_services ts = ([BUNDLE], 12000%Z) ->
  all_skus ts ⊆ all_skus (before ++ ts ++ after) /\
  recommend_services (before ++ ts ++ after) = ([BUNDLE], 12000%Z).
Proof.
  intros Hb.
  assert (all_skus ts ⊆ all_skus (before ++ ts ++ after)) as Hsub
    by (rewrite !all_skus_app; set_solver).
  split; [done|]. apply subseteq_size in Hsub.
  revert Hb. unfold recommend_services.
  destruct (Nat.leb_spec 4 (size (all_skus ts))) as [H4|H4].
  { intros _. by destruct (Nat.leb_spec 4 (size (all_skus (before ++ ts ++ after))));
      [|lia]. }
  intros [= Hsel _]. exfalso.
  assert (BUNDLE ∈ filter (fun s => sku s ∈ all_skus ts) SERVICES) as Hin
    by (rewrite Hsel; by left).
  apply list_elem_of_filter in Hin as [Hin _].
  by apply all_skus_in_catalog in Hin as [? _].
Qed.

Lemma recommend_services_bundle_stays_witness :
  recommend_services (["hello"] ++ ["crm, clay, spam, inmail"] ++ ["abm"])
  = ([BUNDLE], 12000%Z).
Proof.
  apply (recommend_services_bundle_stays ["crm, clay, spam, inmail"] ["hello"] ["abm"]).
  by vm_compute.
Defined.

(** Up to three catalog entries other than the bundle cost at most 8000,
    and nothing only when there are none. *)
Lemma catalog_selection_price (l : list Service) :
  l `sublist_of` SERVICES -> BUNDLE ∉ l -> length l <= 3 ->
  (0 <= sum_prices l <= 8000)%Z /\ (sum_prices l = 0%Z <-> l = []) /\
  (l <> [] -> 1500 <= sum_prices l)%Z.
Proof.
  unfold SERVICES. intros Hs.
  repeat (apply sublist_cons_r in Hs as [Hs|(? & -> & Hs)]).
  all: apply sublist_nil_r in Hs as ->.
  all: intros Hb Hlen;
    first [ cbn in Hlen; lia
          | destruct Hb; unfold BUNDLE; set_solver
          | cbn; split; [lia|]; split;
            [split; first [done | intros; first [lia | discriminate]]
            |intros; first [done | lia]] ].
Qed.

(** X9. Whatever the transcripts, [recommend_services] returns entries of
    the catalog in catalog order with the sum of their prices as total. The
    selection is the bundle alone, or at most three other entries costing
    at most 8000; the total lies between 0 and 12000 and is 0 exactly for
    the empty selection. *)
Theorem recommend_services_bounds (transcripts : list string) :
  let sel := fst (recommend_services transcripts) in
  let total := snd (recommend_services transcripts) in
  sel `sublist_of` SERVICES /\
  total = sum_prices sel /\
  (sel = [BUNDLE] \/ (length sel <= 3 /\ (BUNDLE ∉ sel) /\ (total <= 8000)%Z)) /\
  (0 <= total <= 12000)%Z /\
  (total = 0%Z <-> sel = []).
Proof.
  unfold recommend_services.
  destruct (Nat.leb_spec 4 (size (all_skus transcripts))) as [H4|H4]; cbn [fst snd].
  - split; [apply sublist_filter|]. split; [by vm_compute|].
    split; [left; by vm_compute|]. split; [lia|]. split; [discriminate|].
    intros H. vm_compute in H. discriminate.
  - set (sel := filter (fun s => sku s ∈ all_skus transcripts) SERVICES).
    assert (sel `sublist_of` SERVICES) as Hsub by apply sublist_filter.
    assert (length sel <= 3) as Hlen
      by (unfold sel; rewrite selection_length; lia).
    assert (BUNDLE ∉ sel) as Hb.
    { intros [Hin _]%list_elem_of_filter. by apply all_skus_in_catalog in Hin as [? _]. }
    destruct (catalog_selection_price sel Hsub Hb Hlen) as (Hle & Hzero & _).
    split; [done|]. split; [done|].
    split; [right; split; [done|split; [done|lia]]|]. split; [lia|done].
Qed.

(** ** More on the fetchers *)

Lemma fetch_each_answered (up : upstream) (api_key path : string)
    (ids records : list json) (n : nat) :
  (forall j cid e, ids !! j = Some cid ->
     up (n + j) (hubspot GET (path +:+ str cid)) = Raise e -> is_HTTPError e) ->
  fetch_each up api_key path ids records n
  = (Ret (records ++ answered up path n ids), n + length ids).
Proof.
  revert records n. induction ids as [|cid ids IH]; intros records n Hup.
  - cbn. by rewrite app_nil_r, Nat.add_0_r.
  - assert (forall j c e, ids !! j = Some c ->
              up (S n + j) (hubspot GET (path +:+ str c)) = Raise e ->
              is_HTTPError e) as Hrest.
    { intros j c e Hc. replace (S n + j) with (n + S j) by lia. by apply Hup. }
    cbn [answered length].
    destruct (up n (hubspot GET (path +:+ str cid))) as [d|e] eqn:E.
    + rewrite (fetch_each_ok _ _ _ _ _ _ d _ E), (IH _ _ Hrest).
      by rewrite <- app_assoc, Nat.add_succ_r.
    + assert (is_HTTPError e) as He.
      { apply (Hup 0 cid e eq_refl). by rewrite Nat.add_0_r. }
      destruct e as [msg| | | | | | |]; try done.
      rewrite (fetch_each_http_error _ _ _ _ _ _ msg _ E), (IH _ _ Hrest).
      by rewrite Nat.add_succ_r.
Qed.

Lemma answered_length (up : upstream) (path : string) (n : nat) (ids : list json) :
  length (answered up path n ids) <= length ids.
Proof.
  revert n. induction ids as [|cid ids IH]; intros n; cbn [answered length]; [done|].
  destruct (up n _); cbn [length]; specialize (IH (S n)); lia.
Qed.

(** X10. However many ids fail, as long as each failure is an HTTP error,
    a tolerant fetcher returns after one call per id with exactly the
    records that were answered, in the order of the ids. *)
Theorem fetch_records_tolerant (up : upstream) (api_key : string)
    (kind : record_kind) (ids : list json) (n : nat) :
  (forall j cid e, ids !! j = Some cid ->
     up (n + j) (hubspot GET (record_path kind +:+ str cid)) = Raise e ->
     is_HTTPError e) ->
  fetch_records up api_key kind ids n
  = (Ret (answered up (record_path kind) n ids), n + length ids) /\
  length (answered up (record_path kind) n ids) <= length ids.
Proof.
  intros Hup. split; [|apply answered_length].
  rewrite fetch_records_each. by rewrite (fetch_each_answered _ _ _ _ [] _ Hup).
Qed.

Lemma fetch_records_tolerant_witness :
  fetch_records (routed []) "pat-na1" Companies [JStr "c1"; JInt 7; JStr "c3"] 0
  = (Ret [], 3).
Proof.
  apply (fetch_records_tolerant (routed []) "pat-na1" Companies
           [JStr "c1"; JInt 7; JStr "c3"] 0).
  intros j cid e _ H. vm_compute in H. by injection H as <-.
Defined.

(** X11. A failure that is not an HTTP error is not tolerated: when the
    ids before the [j]-th are answered or fail with an HTTP error and the
    fetch of the [j]-th raises anything else, the fetcher raises that
    exception after [j + 1] calls and returns no record. *)
Theorem fetch_records_aborts (up : upstream) (api_key : string)
    (kind : record_kind) (ids : list json) (j : nat) (cid : json) (e : exn)
    (n : nat) :
  ids !! j = Some cid ->
  up (n + j) (hubspot GET (record_path kind +:+ str cid)) = Raise e ->
  ~ is_HTTPError e ->
  (forall i c e', i < j -> ids !! i = Some c ->
     up (n + i) (hubspot GET (record_path kind +:+ str c)) = Raise e' ->
     is_HTTPError e') ->
  fetch_records up api_key kind ids n = (Raise e, n + j + 1).
Proof.
  rewrite fetch_records_each. generalize (@nil json) as records.
  revert j n. induction ids as [|c0 ids IH]; intros j n records Hj Hup He Hbefore;
    [done|].
  destruct j as [|j].
  - injection Hj as ->. rewrite Nat.add_0_r in Hup. cbn [fetch_each].
    rewrite (try_other _ _ _ _ e (S n)); [f_equal; lia| |done].
    unfold _hubspot_get, call. fold (hubspot GET (record_path kind +:+ str cid)).
    by rewrite Hup.
  - assert (fetch_each up api_key (record_path kind) (c0 :: ids) records n
            = fetch_each up api_key (record_path kind) ids
                (match up n (hubspot GET (record_path kind +:+ str c0)) with
                 | Ret d => records ++ [d]
                 | Raise _ => records
                 end) (S n)) as ->.
    { destruct (up n (hubspot GET (record_path kind +:+ str c0))) as [d|e0] eqn:E.
      - by apply fetch_each_ok.
      - assert (is_HTTPError e0) as H0.
        { apply (Hbefore 0 c0 e0); [lia|done|]. by rewrite Nat.add_0_r. }
        destruct e0 as [msg| | | | | | |]; try done. by eapply fetch_each_http_error. }
    rewrite (IH j (S n)); [f_equal; lia|done| |done|].
    + by replace (S n + j) with (n + S j) by lia.
    + intros i c e' Hi Hc. replace (S n + i) with (n + S i) by lia.
      apply Hbefore; [lia|done].
Qed.

Lemma fetch_records_aborts_witness :
  fetch_records
    (example_upstream_with
       [(hubspot GET "/crm/v3/objects/contacts/p2", Raise ConnectionError)])
    "pat-na1" Contacts [JStr "p1"; JStr "p2"] 2
  = (Raise ConnectionError, 2 + 1 + 1).
Proof.
  apply (fetch_records_aborts _ "pat-na1" Contacts [JStr "p1"; JStr "p2"] 1
           (JStr "p2") ConnectionError 2).
  - reflexivity.
  - by vm_compute.
  - by intros [].
  - intros [|i] c e' Hi Hc H; [|lia]. injection Hc as <-.
    vm_compute in H. discriminate.
Defined.

(** ** The transcript fetch *)

Lemma fetch_meetings_inv (up : upstream) (api_key : string)
    (results acc ts : list json) (n n' : nat) :
  fetch_meetings up api_key results acc n = (Ret ts, n') ->
  exists new,
    ts = acc ++ new /\ Forall marked new /\
    n + length new <= n' /\ n' <= n + length results.
Proof.
  revert acc n. induction results as [|r rs IH]; intros acc n; cbn [fetch_meetings].
  - unfold ret. intros [= <- <-]. exists []. rewrite app_nil_r. cbn.
    split; [done|]. split; [constructor|lia].
  - intros (meeting_id & n0 & Hid & H)%bind_Ret_inv.
    unfold lift in Hid. injection Hid as _ <-.
    destruct (negb (truthy meeting_id)).
    { apply IH in H as (new & -> & Hm & Hlo & Hhi). exists new. cbn [length].
      split; [done|]. split; [done|lia]. }
    unfold try_except_HTTPError in H.
    assert (forall out n1,
              bind (_hubspot_get up api_key
                      ("/crm/v3/objects/meetings/" +:+ str meeting_id))
                (fun meeting =>
                   notes <- lift (meeting_notes meeting) ;;
                   marked <- lift (has_fathom_marker notes) ;;
                   ret (if marked : bool then acc ++ [notes] else acc)) n
              = (out, n1) ->
              n1 = S n /\
              forall ts', out = Ret ts' ->
                exists new, ts' = acc ++ new /\ Forall marked new /\ length new <= 1)
      as Hbody.
    { intros out n1. unfold bind, _hubspot_get, call, lift, ret.
      destruct (up n _) as [meeting|e]; [|by intros [= <- <-]].
      destruct (meeting_notes meeting) as [notes|e]; [|by intros [= <- <-]].
      destruct (has_fathom_marker notes) as [[]|e] eqn:Em; intros [= <- <-];
        (split; [done|]); intros ts' [= <-].
      - exists [notes]. split; [done|]. split; [by repeat constructor | cbn; lia].
      - exists []. rewrite app_nil_r. split; [done|]. split; [constructor | cbn; lia]. }
    destruct (bind _ _ n) as [[ts'|e] n1] eqn:E.
    + destruct (Hbody _ _ eq_refl) as [-> Hts'].
      destruct (Hts' _ eq_refl) as (new1 & -> & Hm1 & Hl1).
      apply IH in H as (new & -> & Hm & Hlo & Hhi). exists (new1 ++ new).
      rewrite length_app, app_assoc. cbn [length].
      split; [done|]. split; [by apply Forall_app|lia].
    + destruct (Hbody _ _ eq_refl) as [-> _]. destruct e; try discriminate.
      apply IH in H as (new & -> & Hm & Hlo & Hhi). exists new. cbn [length].
      split; [done|]. split; [done|lia].
Qed.

Lemma fetch_fathom_transcripts_inv (up : upstream)
    (api_key deal_id : string) (transcripts : list json) (n n' : nat) :
  fetch_fathom_transcripts up api_key deal_id n = (Ret transcripts, n') ->
  Forall marked transcripts /\ n + 1 + length transcripts <= n'.
Proof.
  intros H. unfold fetch_fathom_transcripts in H.
  apply try_Ret_inv in H as [(results & n1 & Hb & H)|(msg & n1 & Hb & H)].
  - apply bind_Ret_inv in Hb as (assoc & n0 & Hcall & Hget).
    unfold _hubspot_get, call in Hcall. injection Hcall as _ <-.
    unfold lift in Hget. injection Hget as _ <-.
    apply bind_Ret_inv in H as (rs & n2 & Hiter & H).
    unfold lift in Hiter. injection Hiter as _ <-.
    apply fetch_meetings_inv in H as (new & -> & Hm & Hlo & _).
    split; [done|]. cbn [app]. lia.
  - unfold ret in H. injection H as <- <-. split; [constructor|]. cbn [length].
    revert Hb. unfold bind, _hubspot_get, call, lift.
    destruct (up n _); intros [= _ <-]; lia.
Qed.

(** X12. Every transcript that [fetch_fathom_transcripts] returns carries
    one of the two Fathom markers (a text contains "AI Meeting Summary" or
    "Generated by Fathom"), and each was read from a meeting fetch of its
    own after the listing call: [k] transcripts cost at least [k + 1]
    calls. *)
Theorem fetch_fathom_transcripts_marked (up : upstream)
    (api_key deal_id : string) (transcripts : list json) (n n' : nat) :
  fetch_fathom_transcripts up api_key deal_id n = (Ret transcripts, n') ->
  Forall marked transcripts /\
  (forall text, JStr text ∈ transcripts ->
     contains text "AI Meeting Summary" = true \/
     contains text "Generated by Fathom" = true) /\
  n + 1 + length transcripts <= n'.
Proof.
  intros [Hm Hn]%fetch_fathom_transcripts_inv.
  split; [done|]. split; [|done].
  intros text Hin. rewrite Forall_forall in Hm. specialize (Hm _ Hin).
  unfold marked, has_fathom_marker in Hm. cbn [contains_in rbind] in Hm.
  destruct (contains text "AI Meeting Summary"); [by left|].
  injection Hm as ->. by right.
Qed.

Lemma fetch_fathom_transcripts_marked_witness :
  Forall marked [JStr example_notes_1; JStr example_notes_2] /\
  (forall text, JStr text ∈ [JStr example_notes_1; JStr example_notes_2] ->
     contains text "AI Meeting Summary" = true \/
     contains text "Generated by Fathom" = true) /\
  4 + 1 + length [JStr example_notes_1; JStr example_notes_2] <= 7.
Proof.
  apply (fetch_fathom_transcripts_marked example_upstream "pat-na1" "456").
  by vm_compute.
Defined.

(** ** The product index *)

Lemma index_products_inv (ps : list json) (m m' : gmap string json) :
  index_products ps m = Ret m' ->
  (forall s pid, m' !! s = Some pid ->
     m !! s = Some pid \/
     exists p, p ∈ ps /\ product_sku p = Ret (JStr s) /\ getitem p "id" = Ret pid) /\
  (forall s, is_Some (m !! s) -> is_Some (m' !! s)) /\
  (forall p s, p ∈ ps -> product_sku p = Ret (JStr s) -> s <> "" ->
     is_Some (m' !! s)).
Proof.
  revert m. induction ps as [|p ps IH]; intros m; cbn [index_products].
  - intros [= <-]. split; [by left|]. split; [done|].
    intros p s Hp. by apply elem_of_nil in Hp.
  - fold (product_sku p). unfold product_sku at 1.
    destruct (get p "properties" JNull) as [props|] eqn:Ep; [|done]. cbn [rbind].
    destruct (get (or_ props (JObj [])) "hs_sku" JNull) as [k|] eqn:Ek; [|done].
    cbn [rbind].
    assert (product_sku p = Ret k) as Hsku
      by (unfold product_sku; rewrite Ep; cbn [rbind]; by rewrite Ek).
    assert (forall m0,
              index_products ps m0 = Ret m' ->
              (forall s pid, m0 !! s = Some pid -> m !! s = Some pid \/
                 product_sku p = Ret (JStr s) /\ getitem p "id" = Ret pid) ->
              (forall s, is_Some (m !! s) -> is_Some (m0 !! s)) ->
              (forall s, k = JStr s -> s <> "" -> is_Some (m0 !! s)) ->
              (forall s pid, m' !! s = Some pid ->
                 m !! s = Some pid \/
                 exists p0, p0 ∈ p :: ps /\ product_sku p0 = Ret (JStr s) /\
                            getitem p0 "id" = Ret pid) /\
              (forall s, is_Some (m !! s) -> is_Some (m' !! s)) /\
              (forall p0 s, p0 ∈ p :: ps -> product_sku p0 = Ret (JStr s) ->
                 s <> "" -> is_Some (m' !! s))) as Hstep.
    { intros m0 (Hs & Hkeep & Hall)%IH Hm0 Hmono Hk. split; [|split].
      - intros s pid [H|(p0 & Hp0 & ?)]%Hs.
        + destruct (Hm0 _ _ H) as [?|[? ?]]; [by left|].
          right. exists p. split; [by left|done].
        + right. exists p0. split; [by right|done].
      - intros s H. by apply Hkeep, Hmono.
      - intros p0 s [->|Hp0]%elem_of_cons Hs0 Hne.
        + apply Hkeep, Hk; [congruence|done].
        + by eapply Hall. }
    destruct (truthy k) eqn:Ht.
    + destruct (getitem p "id") as [pid|] eqn:Eid; [|done]. cbn [rbind].
      destruct k as [|b|z|s|l|items]; try done.
      * intros H. apply (Hstep m H); [by left|done|discriminate].
      * intros H. apply (Hstep m H); [by left|done|discriminate].
      * intros H. apply (Hstep _ H).
        -- intros s0 pid0. rewrite lookup_insert. case_decide as Hs0.
           ++ intros [= <-]. subst s0. by right.
           ++ by left.
        -- intros s0 Hs0. rewrite lookup_insert. by case_decide.
        -- intros s0 [= <-] _. by rewrite lookup_insert_eq.
    + intros H. apply (Hstep m H); [by left|done|].
      intros s -> Hne. cbn in Ht. by rewrite (proj2 (String.eqb_neq _ _) Hne) in Ht.
Qed.

(** X13. The product index that [fetch_products] builds after its one call
    holds, under a sku, only the id of a product of the answer that carries
    that sku, and it resolves every non-empty string sku that some product
    of the answer carries. *)
Theorem fetch_products_index (up : upstream) (api_key : string)
    (sku_to_id : gmap string json) (n n' : nat) :
  fetch_products up api_key n = (Ret sku_to_id, n') ->
  n' = S n /\
  exists data results products,
    up n (hubspot GET "/crm/v3/objects/products") = Ret data /\
    get data "results" (JArr []) = Ret results /\
    iter results = Ret products /\
    (forall s pid, sku_to_id !! s = Some pid ->
       exists p, p ∈ products /\ product_sku p = Ret (JStr s) /\
                 getitem p "id" = Ret pid) /\
    (forall p s, p ∈ products -> product_sku p = Ret (JStr s) -> s <> "" ->
       is_Some (sku_to_id !! s)).
Proof.
  unfold fetch_products. intros (data & n1 & Hcall & H)%bind_Ret_inv.
  unfold _hubspot_get, call in Hcall. injection Hcall as Hdata <-.
  unfold lift in H. injection H as H <-. split; [done|].
  destruct (get data "results" (JArr [])) as [results|] eqn:Er; [|done].
  cbn [rbind] in H. destruct (iter results) as [products|] eqn:Ei; [|done].
  cbn [rbind] in H. apply index_products_inv in H as (Hs & _ & Hall).
  exists data, results, products. repeat (split; [done|]). split; [|done].
  intros s pid [H|H]%Hs; [by rewrite lookup_empty in H | done].
Qed.

Lemma fetch_products_index_witness :
  exists sku_to_id,
    fetch_products example_upstream "pat-na1" 9 = (Ret sku_to_id, 10) /\
    forall s pid, sku_to_id !! s = Some pid ->
      exists p, p ∈ [JObj [("id", JStr "9001"); ("properties", JObj [("hs_sku", JStr "CGO-CRM")])];
                     JObj [("id", JStr "9002"); ("properties", JObj [("hs_sku", JStr "CGO-SALESOPS")])];
                     JObj [("id", JStr "9003"); ("properties", JObj [("hs_sku", JStr "CGO-MKTOPS")])]] /\
                product_sku p = Ret (JStr s) /\ getitem p "id" = Ret pid.
Proof.
  destruct (fetch_products example_upstream "pat-na1" 9) as [[m|e] k] eqn:E;
    [|vm_compute in E; discriminate].
  assert (k = 10) as -> by (vm_compute in E; congruence).
  exists m. split; [done|].
  destruct (fetch_products_index example_upstream "pat-na1" m 9 10 E)
    as (_ & data & results & products & Hd & Hr & Hi & Hsound & _).
  vm_compute in Hd. injection Hd as <-.
  vm_compute in Hr. injection Hr as <-.
  vm_compute in Hi. injection Hi as <-.
  exact Hsound.
Defined.

(** ** A completed assembly *)

Lemma create_line_items_inv (up : upstream) (api_key : string) (quote_id : json)
    (sku_to_id : gmap string json) (services : list Service) (k k' : nat) :
  create_line_items up api_key quote_id sku_to_id services k = (Ret tt, k') ->
  k' = k + 2 * length (billed sku_to_id services) /\
  forall j, j < length (billed sku_to_id services) ->
    line_item_created up quote_id k j.
Proof.
  revert k. induction services as [|svc rest IH]; intros k.
  - cbn. intros [= <-]. split; [lia|]. intros j Hj. cbn in Hj. lia.
  - destruct (billable sku_to_id svc) eqn:Hb.
    + unfold billed. rewrite filter_cons_True by done. fold (billed sku_to_id rest).
      cbn [create_line_items length]. unfold billable in Hb. rewrite Hb. cbn [negb].
      intros (line_item & k1 & Hpost & H)%bind_Ret_inv.
      unfold _hubspot_post, call in Hpost. injection Hpost as Hpost <-.
      apply bind_Ret_inv in H as (li_id & k2 & Hid & H).
      unfold lift in Hid. injection Hid as Hid <-.
      apply bind_Ret_inv in H as ([] & k3 & Hput & H).
      unfold _hubspot_put in Hput.
      apply bind_Ret_inv in Hput as (r & k4 & Hput & Hret).
      unfold call in Hput. injection Hput as Hput <-.
      unfold ret in Hret. injection Hret as <-.
      apply IH in H as (-> & Hrest). split; [lia|].
      intros [|j] Hj.
      * exists line_item, li_id, r. rewrite Nat.mul_0_r, Nat.add_0_r.
        replace (k + 1) with (S k) by lia. done.
      * destruct (Hrest j ltac:(lia)) as (li & i & r' & H1 & H2 & H3).
        exists li, i, r'.
        replace (k + 2 * S j) with (S (S k) + 2 * j) by lia. done.
    + unfold billed. rewrite filter_cons_False by (by rewrite Hb).
      fold (billed sku_to_id rest).
      rewrite create_line_items_skip by done. apply IH.
Qed.

(** X14. A quote assembly that returns has made exactly [2 + 2 b] calls,
    [b] being the number of selected services whose sku resolves to a usable
    product id: the catalog lookup, the quote creation, and for each such
    service, in order, the creation of its line item and the association of
    that line item to the quote, every one of them answered. The URL it
    returns is built from the tenant and the id of the created quote. *)
Theorem create_quote_and_line_items_done (up : upstream)
    (api_key portal_id deal_id : string) (company_name : json)
    (services : list Service) (exec_summary preview quote_url : string)
    (n n' : nat) :
  create_quote_and_line_items up api_key portal_id deal_id company_name services
    exec_summary preview n = (Ret quote_url, n') ->
  exists sku_to_id quote quote_id,
    fetch_products up api_key n = (Ret sku_to_id, S n) /\
    up (S n) (hubspot POST "/crm/v3/objects/quotes") = Ret quote /\
    getitem quote "id" = Ret quote_id /\
    quote_url = "https://app.hubspot.com/contacts/" +:+ portal_id +:+
                "/record/0-115/" +:+ str quote_id /\
    n' = n + 2 + 2 * length (billed sku_to_id services) /\
    forall j, j < length (billed sku_to_id services) ->
      line_item_created up quote_id (n + 2) j.
Proof.
  unfold create_quote_and_line_items.
  intros (sku_to_id & n1 & Hp & H)%bind_Ret_inv.
  assert (n1 = S n) as ->.
  { revert Hp. unfold fetch_products, bind, _hubspot_get, call, lift.
    destruct (up n _); [|done]. by intros [= _ <-]. }
  apply bind_Ret_inv in H as (quote & n2 & Hq & H).
  unfold _hubspot_post, call in Hq. injection Hq as Hq <-.
  apply bind_Ret_inv in H as (quote_id & n3 & Hid & H).
  unfold lift in Hid. injection Hid as Hid <-.
  apply bind_Ret_inv in H as ([] & n4 & Hli & H).
  unfold ret in H. injection H as <- <-.
  apply create_line_items_inv in Hli as (-> & Hall).
  exists sku_to_id, quote, quote_id. repeat (split; [done|]).
  split; [lia|]. intros j Hj. replace (n + 2) with (S (S n)) by lia. by apply Hall.
Qed.

Lemma create_quote_and_line_items_done_witness :
  exists sku_to_id quote quote_id,
    fetch_products example_upstream "pat-na1" 9 = (Ret sku_to_id, S 9) /\
    example_upstream (S 9) (hubspot POST "/crm/v3/objects/quotes") = Ret quote /\
    getitem quote "id" = Ret quote_id /\
    "https://app.hubspot.com/contacts/123/record/0-115/777"
    = "https://app.hubspot.com/contacts/" +:+ "123" +:+
      "/record/0-115/" +:+ str quote_id /\
    13 = 9 + 2 + 2 * length (billed sku_to_id [CRM; mkService "CGO-DATA" "Ongoing Data Enrichment" 1500 ""]) /\
    forall j, j < length (billed sku_to_id [CRM; mkService "CGO-DATA" "Ongoing Data Enrichment" 1500 ""]) ->
      line_item_created example_upstream quote_id (9 + 2) j.
Proof.
  apply (create_quote_and_line_items_done example_upstream "pat-na1" "123" "456"
           (JStr "Acme") _ "" "").
  by vm_compute.
Defined.

(** ** Results of a run *)

(** What the orchestrator goes on with is never empty: catalog entries in
    catalog order, with the sum of their prices as total. *)
Lemma select_services_shape (texts : list string) (services : list Service)
    (total : Z) :
  select_services texts = Ret (services, total) ->
  services <> [] /\ services `sublist_of` SERVICES /\
  total = sum_prices services /\ (1500 <= total <= 12000)%Z.
Proof.
  assert (filter (fun s => sku s = "CGO-BUNDLE") SERVICES = [BUNDLE]) as Ebundle
    by reflexivity.
  assert (filter (fun s => sku s = "CGO-MKTOPS") SERVICES = [MKTOPS]) as Emktops
    by reflexivity.
  assert ([BUNDLE] `sublist_of` SERVICES) as Hbundle
    by (rewrite <- Ebundle; apply sublist_filter).
  assert ([MKTOPS] `sublist_of` SERVICES) as Hmktops
    by (rewrite <- Emktops; apply sublist_filter).
  unfold select_services, recommend_services.
  destruct (Nat.leb_spec 4 (size (all_skus texts))) as [H4|H4].
  - rewrite Ebundle. intros [= <- <-]. split; [done|]. split; [done|]. by vm_compute.
  - set (sel := filter (fun s => sku s ∈ all_skus texts) SERVICES).
    assert (sel `sublist_of` SERVICES) as Hsub by apply sublist_filter.
    assert (length sel <= 3) as Hlen
      by (unfold sel; rewrite selection_length; lia).
    assert (BUNDLE ∉ sel) as Hb.
    { intros [Hin _]%list_elem_of_filter. by apply all_skus_in_catalog in Hin as [? _]. }
    destruct (catalog_selection_price sel Hsub Hb Hlen) as (Hle & _ & Hlow).
    destruct sel as [|s sel'] eqn:Esel.
    + change (SERVICES !! 0) with (Some MKTOPS).
      intros [= <- <-]. split; [done|]. split; [done|]. by vm_compute.
    + intros [= <- <-]. split; [done|]. split; [done|]. split; [done|].
      specialize (Hlow ltac:(done)). lia.
Qed.

Lemma unset_false (v : option string) :
  unset v = false -> exists s, v = Some s /\ s <> "".
Proof.
  destruct v as [s|]; [|done]. cbn. intros H%String.eqb_neq. by exists s.
Qed.

(** A run that returns a success has gone through every phase. *)
Lemma run_workflow_Success_inv (up : upstream) (env : Env) (deal_url : string)
    (n : nat) (quote_url : string) (cname : json) (total : Z)
    (names : list string) (n' : nat) :
  run_workflow up env deal_url n = (Ret (Success quote_url cname total names), n') ->
  exists api_key portal_id anthropic_key deal_id company_name n2 transcripts n3
         texts services,
    reaches_transcripts up env deal_url n api_key portal_id anthropic_key
      deal_id company_name n2 /\
    fetch_fathom_transcripts up api_key deal_id n2 = (Ret transcripts, n3) /\
    transcripts <> [] /\
    as_texts transcripts = Ret texts /\
    select_services texts = Ret (services, total) /\
    deliver up api_key portal_id anthropic_key deal_id company_name texts
      services total n3 = (Ret (Success quote_url cname total names), n').
Proof.
  unfold run_workflow.
  destruct (unset (HUBSPOT_API_KEY env)) eqn:E1; [done|].
  destruct (unset (HUBSPOT_PORTAL_ID env)) eqn:E2; [done|].
  destruct (unset (ANTHROPIC_API_KEY env)) eqn:E3; [done|]. cbn [orb].
  apply unset_false in E1 as (api_key & Ha & Hane).
  apply unset_false in E2 as (portal_id & Hp & Hpne).
  apply unset_false in E3 as (anthropic_key & Hk & Hkne).
  rewrite Ha, Hp, Hk. cbn [default from_option id].
  destruct (parse_deal_url deal_url) as [[url_portal deal_id]|] eqn:Eparse; [|done].
  destruct (String.eqb_spec url_portal portal_id) as [->|]; [|done]. cbn [negb].
  intros [(deal_resp & n1 & Hdeal & H)|(msg & n1 & _ & H)]%try_Ret_inv; [|done].
  apply bind_Ret_inv in H as (company_name & n2 & Hctx & H).
  apply bind_Ret_inv in H as (transcripts & n3 & Hfetch & H).
  destruct transcripts as [|t ts]; [done|]. cbn [propose] in H.
  apply bind_Ret_inv in H as (texts & n4 & Htexts & H).
  unfold lift in Htexts. injection Htexts as Htexts <-.
  apply bind_Ret_inv in H as ([services total'] & n5 & Hsel & H).
  unfold lift in Hsel. injection Hsel as Hsel <-. cbn [fst snd] in H.
  pose proof H as Hd. apply deliver_Success_inv in Hd as (_ & -> & _).
  exists api_key, portal_id, anthropic_key, deal_id, company_name, n2, (t :: ts),
    n3, texts, services.
  split; [|done]. split.
  - split; [|done]. destruct env as [a p k]. cbn in Ha, Hp, Hk. by subst.
  - split; [done|]. by exists deal_resp, n1.
Qed.

(** X15. A success result is consistent with itself and with the input:
    it names at least one service, the names are those of catalog entries
    in catalog order, the monthly total is the sum of their catalog prices
    and lies between 1500 and 12000, the company name is the one the run
    chose for display, and the quote URL carries the configured tenant,
    which is the tenant of the deal reference, and the id under which the
    upstream answered the quote creation. *)
Theorem run_workflow_success (up : upstream) (env : Env) (deal_url : string)
    (n : nat) (quote_url : string) (cname : json) (total : Z)
    (names : list string) (n' : nat) :
  run_workflow up env deal_url n = (Ret (Success quote_url cname total names), n') ->
  exists portal_id deal_id services quote_id,
    HUBSPOT_PORTAL_ID env = Some portal_id /\
    parse_deal_url deal_url = Some (portal_id, deal_id) /\
    names = name <$> services /\ services <> [] /\
    services `sublist_of` SERVICES /\
    total = sum_prices services /\ (1500 <= total <= 12000)%Z /\
    (exists k quote,
       up k (hubspot POST "/crm/v3/objects/quotes") = Ret quote /\
       getitem quote "id" = Ret quote_id) /\
    quote_url = "https://app.hubspot.com/contacts/" +:+ portal_id +:+
                "/record/0-115/" +:+ str quote_id.
Proof.
  intros (api_key & portal_id & anthropic_key & deal_id & company_name & n2 &
          transcripts & n3 & texts & services & Hreach & _ & _ & _ & Hsel & Hd)
         %run_workflow_Success_inv.
  destruct Hreach as ((-> & _) & Hparse & _).
  apply select_services_shape in Hsel as (Hne & Hsub & Htotal & Hbounds).
  apply deliver_Success_inv in Hd
    as (_ & _ & -> & k & quote & quote_id & Hquote & Hid & ->).
  exists portal_id, deal_id, services, quote_id.
  repeat (split; [done|]). split; [by exists k, quote | done].
Qed.

Lemma run_workflow_success_witness :
  exists portal_id deal_id services quote_id,
    HUBSPOT_PORTAL_ID example_env = Some portal_id /\
    parse_deal_url example_url = Some (portal_id, deal_id) /\
    ["Sales Operations Consulting"; "CRM Management"] = name <$> services /\
    services <> [] /\ services `sublist_of` SERVICES /\
    5000%Z = sum_prices services /\ (1500 <= 5000 <= 12000)%Z /\
    (exists k quote,
       example_upstream k (hubspot POST "/crm/v3/objects/quotes") = Ret quote /\
       getitem quote "id" = Ret quote_id) /\
    "https://app.hubspot.com/contacts/123/record/0-115/777"
    = "https://app.hubspot.com/contacts/" +:+ portal_id +:+
      "/record/0-115/" +:+ str quote_id.
Proof.
  apply (run_workflow_success example_upstream example_env example_url 0 _
           (JStr "Acme") _ _ 15).
  by vm_compute.
Defined.

(** ** Failures of a run *)

Section Advances.

Context (up : upstream).

Lemma advances_ret {A} (a : A) : advances (ret a).
Proof. intros n out n'. unfold ret. intros [= _ <-]. lia. Qed.

Lemma advances_lift {A} (r : result A) : advances (lift r).
Proof. intros n out n'. unfold lift. intros [= _ <-]. lia. Qed.

Lemma advances_call (req : request) : advances (call up req).
Proof. intros n out n'. unfold call. intros [= _ <-]. lia. Qed.

Lemma advances_bind {A B} (m : M A) (k : A -> M B) :
  advances m -> (forall a, advances (k a)) -> advances (bind m k).
Proof.
  intros Hm Hk n out n'. unfold bind. destruct (m n) as [[a|e] n1] eqn:E.
  - intros H%Hk. apply Hm in E. lia.
  - intros [= _ <-]. by apply Hm in E.
Qed.

Lemma advances_try {A B} (body : M A) (handler : string -> M B) (k : A -> M B) :
  advances body -> (forall msg, advances (handler msg)) ->
  (forall a, advances (k a)) -> advances (try_except_HTTPError body handler k).
Proof.
  intros Hb Hh Hk n out n'. unfold try_except_HTTPError.
  destruct (body n) as [[a|e] n1] eqn:E; apply Hb in E.
  - intros H%Hk. lia.
  - destruct e; first [intros H%Hh; lia | intros [= _ <-]; lia].
Qed.

Ltac advances_step :=
  first [ apply advances_ret | apply advances_lift | apply advances_call
        | apply advances_bind; [|intros ?]
        | apply advances_try; [|intros ?|intros ?] ].

Lemma advances_fetch_each (api_key path : string) (ids records : list json) :
  advances (fetch_each up api_key path ids records).
Proof.
  revert records. induction ids as [|cid ids IH]; intros records; cbn [fetch_each].
  - apply advances_ret.
  - apply advances_try; [apply advances_call | intros _; apply IH | intros d; apply IH].
Qed.

Lemma advances_fetch_meetings (api_key : string) (results transcripts : list json) :
  advances (fetch_meetings up api_key results transcripts).
Proof.
  revert transcripts. induction results as [|r rs IH]; intros transcripts;
    cbn [fetch_meetings].
  - apply advances_ret.
  - apply advances_bind; [apply advances_lift|]. intros meeting_id.
    destruct (negb _); [apply IH|].
    apply advances_try; [|intros _; apply IH|intros ts; apply IH].
    unfold _hubspot_get. repeat advances_step.
Qed.

Lemma advances_fetch_fathom_transcripts (api_key deal_id : string) :
  advances (fetch_fathom_transcripts up api_key deal_id).
Proof.
  apply advances_try.
  - unfold _hubspot_get. repeat advances_step.
  - intros _. apply advances_ret.
  - intros results. apply advances_bind; [apply advances_lift|].
    intros rs. apply advances_fetch_meetings.
Qed.

Lemma advances_deal_context (api_key : string) (deal_resp : json) :
  advances (deal_context up api_key deal_resp).
Proof.
  unfold deal_context, fetch_companies, fetch_contacts.
  repeat (apply advances_bind;
          [first [apply advances_lift | apply advances_fetch_each]|intros ?]).
  apply advances_lift.
Qed.

Lemma advances_create_line_items (api_key : string) (quote_id : json)
    (sku_to_id : gmap string json) (services : list Service) :
  advances (create_line_items up api_key quote_id sku_to_id services).
Proof.
  induction services as [|svc rest IH]; cbn [create_line_items].
  - apply advances_ret.
  - destruct (negb _); [apply IH|].
    unfold _hubspot_post, _hubspot_put.
    repeat (apply advances_bind;
            [first [apply advances_call | apply advances_lift
                   | apply advances_bind; [apply advances_call|intros ?; apply advances_ret]]
            |intros ?]).
    apply IH.
Qed.

Lemma advances_deliver (api_key portal_id anthropic_key deal_id : string)
    (company_name : json) (texts : list string) (services : list Service)
    (total : Z) :
  advances (deliver up api_key portal_id anthropic_key deal_id company_name
              texts services total).
Proof.
  unfold deliver, assemble, generate_executive_summary, generate_90_day_preview,
    _call_claude, create_quote_and_line_items, fetch_products, _hubspot_get,
    _hubspot_post.
  apply advances_try; [repeat advances_step|intros ?; apply advances_ret|].
  intros narrative. apply advances_try; [|intros ?; apply advances_ret..].
  repeat (apply advances_bind;
          [first [apply advances_call | apply advances_lift
                 | apply advances_create_line_items
                 | apply advances_bind; [apply advances_call|intros ?; apply advances_lift]]
          |intros ?]).
  apply advances_ret.
Qed.

End Advances.

Lemma raw_HTTPError {A} (up : upstream) (m : M A) (n : nat) (msg : string)
    (n' : nat) :
  raw up m -> m n = (Raise (HTTPError msg), n') ->
  exists k req, up k req = Raise (HTTPError msg).
Proof. intros Hraw [[]|H]%Hraw. exact H. Qed.

Lemma classify_upstream (stage msg : string) :
  stage ∈ upstream_stages -> classify (stage +:+ msg) = UpstreamError.
Proof.
  unfold upstream_stages. rewrite !elem_of_cons, elem_of_nil.
  intros [->|[->|[->|[]]]]; by vm_compute.
Qed.

(** X16. Every failure result names its cause, and the cause fixes how far
    the run got. A configuration or validation failure is returned before
    any call. The no-transcripts failure comes after the deal fetch and the
    listing of the meetings. Every other failure is one of the three
    upstream messages followed by the text of an HTTP error that an
    upstream call did raise. *)
Theorem run_workflow_failure (up : upstream) (env : Env) (deal_url : string)
    (n : nat) (e : string) (n' : nat) :
  run_workflow up env deal_url n = (Ret (Failure e), n') ->
  (n' = n /\
   ((classify e = ConfigurationError /\
     (e = MSG_HUBSPOT_CONFIG \/ e = MSG_ANTHROPIC_CONFIG)) \/
    (classify e = ValidationError /\
     (e = MSG_INVALID_URL \/
      exists url_portal portal_id, e = MSG_PORTAL_MISMATCH url_portal portal_id)))) \/
  (e = MSG_NO_TRANSCRIPTS /\ classify e = PreconditionFailed /\ n + 2 <= n') \/
  (classify e = UpstreamError /\ n < n' /\
   exists stage msg k req,
     e = stage +:+ msg /\ stage ∈ upstream_stages /\
     up k req = Raise (HTTPError msg)).
Proof.
  unfold run_workflow.
  destruct (unset (HUBSPOT_API_KEY env) || unset (HUBSPOT_PORTAL_ID env)).
  { unfold ret. intros [= <- <-]. left. split; [done|]. left. split; [done|by left]. }
  destruct (unset (ANTHROPIC_API_KEY env)).
  { unfold ret. intros [= <- <-]. left. split; [done|]. left. split; [done|by right]. }
  destruct (parse_deal_url deal_url) as [[url_portal deal_id]|].
  2:{ unfold ret. intros [= <- <-]. left. split; [done|]. right. split; [done|by left]. }
  destruct (negb _).
  { unfold ret. intros [= <- <-]. left. split; [done|]. right.
    split; [apply classify_portal_mismatch|]. right. eauto. }
  set (api_key := default "" (HUBSPOT_API_KEY env)).
  set (portal_id := default "" (HUBSPOT_PORTAL_ID env)).
  set (anthropic_key := default "" (ANTHROPIC_API_KEY env)).
  assert (forall stage msg n1 k req,
            stage ∈ upstream_stages -> n < n1 ->
            up k req = Raise (HTTPError msg) ->
            ret (Failure (stage +:+ msg)) n1 = (Ret (Failure e), n') ->
            classify e = UpstreamError /\ n < n' /\
            exists stage msg k req,
              e = stage +:+ msg /\ stage ∈ upstream_stages /\
              up k req = Raise (HTTPError msg)) as Hupstream.
  { intros stage msg n1 k req Hstage Hn Hup. unfold ret. intros [= <- <-].
    split; [by apply classify_upstream|]. split; [done|].
    by exists stage, msg, k, req. }
  intros [(deal_resp & n1 & Hdeal & H)|(msg & n1 & Hdeal & H)]%try_Ret_inv.
  2:{ right. right.
      destruct (raw_HTTPError up (fetch_deal up api_key deal_id) _ _ _
                  (raw_hubspot_get up _ _) Hdeal) as (k & req & Hk).
      unfold fetch_deal, _hubspot_get, call in Hdeal. injection Hdeal as _ <-.
      apply (Hupstream "HubSpot API error: " msg (S n) k req);
        [set_solver|lia|done|done]. }
  unfold fetch_deal, _hubspot_get, call in Hdeal. injection Hdeal as _ <-.
  apply bind_Ret_inv in H as (company_name & n2 & Hctx & H).
  apply advances_deal_context in Hctx.
  apply bind_Ret_inv in H as (transcripts & n3 & Hfetch & H).
  apply fetch_fathom_transcripts_inv in Hfetch as [_ Hn3].
  destruct transcripts as [|t ts]; cbn [propose] in H.
  { unfold ret in H. injection H as <- <-. right. left.
    split; [done|]. split; [by vm_compute|]. cbn [length] in Hn3. lia. }
  apply bind_Ret_inv in H as (texts & n4 & Htexts & H).
  unfold lift in Htexts. injection Htexts as _ <-.
  apply bind_Ret_inv in H as (selection & n5 & Hsel & H).
  unfold lift in Hsel. injection Hsel as _ <-.
  right. right. unfold deliver in H.
  apply try_Ret_inv in H as [(narrative & n6 & Hnarr & H)|(msg & n6 & Hnarr & H)].
  - unfold assemble in H.
    pose proof Hnarr as Hadv.
    apply (advances_bind _ _) in Hadv;
      [|unfold generate_executive_summary, _call_claude;
        apply advances_bind; [apply advances_call | intros ?; apply advances_lift]
       |intros ?; unfold generate_90_day_preview, _call_claude;
        apply advances_bind;
        [apply advances_bind; [apply advances_call | intros ?; apply advances_lift]
        |intros ?; apply advances_ret]].
    apply try_Ret_inv in H as [(url0 & n7 & _ & H)|(msg & n7 & Hq & H)]; [done|].
    destruct (raw_HTTPError up _ _ _ _
                (raw_create_quote_and_line_items up _ _ _ _ _ _ _) Hq)
      as (k & req & Hk).
    assert (n6 <= n7) as Hn7.
    { revert Hq. unfold create_quote_and_line_items, fetch_products,
        _hubspot_get, _hubspot_post.
      apply advances_bind;
        [apply advances_bind; [apply advances_call|intros ?; apply advances_lift]|].
      intros ?. apply advances_bind; [apply advances_call|]. intros ?.
      apply advances_bind; [apply advances_lift|]. intros ?.
      apply advances_bind; [apply advances_create_line_items|]. intros ?.
      apply advances_ret. }
    apply (Hupstream "HubSpot error creating quote: " msg n7 k req);
      [set_solver|lia|done|done].
  - assert (raw up
              (exec_summary <- generate_executive_summary up anthropic_key texts
                                 company_name (fst selection) (snd selection) ;;
               preview <- generate_90_day_preview up anthropic_key texts
                            company_name ;;
               ret (exec_summary, preview))) as Hraw.
    { apply raw_bind; [apply raw_call_claude|]. intros ?.
      apply raw_bind; [apply raw_call_claude|]. intros ?.
      apply clean_raw, clean_ret. }
    destruct (raw_HTTPError up _ _ _ _ Hraw Hnarr) as (k & req & Hk).
    apply (advances_bind _ _) in Hnarr;
      [|unfold generate_executive_summary, _call_claude;
        apply advances_bind; [apply advances_call | intros ?; apply advances_lift]
       |intros ?; unfold generate_90_day_preview, _call_claude;
        apply advances_bind;
        [apply advances_bind; [apply advances_call | intros ?; apply advances_lift]
        |intros ?; apply advances_ret]].
    apply (Hupstream "Claude API error: " msg n6 k req);
      [set_solver|lia|done|done].
Qed.

Lemma run_workflow_failure_witness :
  (10 = 0 /\
   ((classify "HubSpot error creating quote: 503 Server Error" = ConfigurationError /\
     ("HubSpot error creating quote: 503 Server Error" = MSG_HUBSPOT_CONFIG \/
      "HubSpot error creating quote: 503 Server Error" = MSG_ANTHROPIC_CONFIG)) \/
    (classify "HubSpot error creating quote: 503 Server Error" = ValidationError /\
     ("HubSpot error creating quote: 503 Server Error" = MSG_INVALID_URL \/
      exists url_portal portal_id,
        "HubSpot error creating quote: 503 Server Error"
        = MSG_PORTAL_MISMATCH url_portal portal_id)))) \/
  ("HubSpot error creating quote: 503 Server Error" = MSG_NO_TRANSCRIPTS /\
   classify "HubSpot error creating quote: 503 Server Error" = PreconditionFailed /\
   0 + 2 <= 10) \/
  (classify "HubSpot error creating quote: 503 Server Error" = UpstreamError /\
   0 < 10 /\
   exists stage msg k req,
     "HubSpot error creating quote: 503 Server Error" = stage +:+ msg /\
     stage ∈ upstream_stages /\
     products_down k req = Raise (HTTPError msg)).
Proof.
  apply (run_workflow_failure products_down example_env example_url 0).
  by vm_compute.
Defined.

(** ** The deal context *)

(** X18. Reading the context of a deal costs one call per associated
    company and per associated contact, HTTP failures among them included,
    and the name the run displays is the name of the first company that
    was answered, or, when none was, the deal's own name ("Unknown Deal"
    for a deal without one). *)
Theorem deal_context_display_name (up : upstream) (api_key : string)
    (deal_resp deal_props deal_name associations : json)
    (company_ids contact_ids : list json) (n : nat) :
  get deal_resp "properties" (JObj []) = Ret deal_props ->
  get deal_props "dealname" (JStr "Unknown Deal") = Ret deal_name ->
  get deal_resp "associations" (JObj []) = Ret associations ->
  association_ids associations "companies" = Ret company_ids ->
  association_ids associations "contacts" = Ret contact_ids ->
  (forall j cid e, (company_ids ++ contact_ids) !! j = Some cid ->
     up (n + j)
        (hubspot GET ((if bool_decide (j < length company_ids)
                       then record_path Companies else record_path Contacts)
                      +:+ str cid)) = Raise e ->
     is_HTTPError e) ->
  deal_context up api_key deal_resp n
  = (display_name (answered up (record_path Companies) n company_ids) deal_name,
     n + length company_ids + length contact_ids) /\
  (answered up (record_path Companies) n company_ids = [] ->
   deal_context up api_key deal_resp n
   = (Ret deal_name, n + length company_ids + length contact_ids)).
Proof.
  intros Hprops Hname Hassoc Hco Hct Hup.
  assert (deal_context up api_key deal_resp n
          = (display_name (answered up (record_path Companies) n company_ids)
               deal_name,
             n + length company_ids + length contact_ids)) as Hctx.
  { unfold deal_context.
    erewrite bind_Ret; [|unfold lift; by rewrite Hprops].
    erewrite bind_Ret; [|unfold lift; by rewrite Hname].
    erewrite bind_Ret; [|unfold lift; by rewrite Hassoc].
    erewrite bind_Ret; [|unfold lift; by rewrite Hco].
    erewrite bind_Ret; [|unfold lift; by rewrite Hct].
    erewrite bind_Ret.
    2:{ unfold fetch_companies.
        apply (fetch_each_answered up api_key (record_path Companies)).
        intros j cid e Hj He. apply (Hup j cid e).
        - by apply lookup_app_l_Some.
        - rewrite bool_decide_eq_true_2; [done|]. by eapply lookup_lt_Some. }
    erewrite bind_Ret.
    2:{ unfold fetch_contacts.
        apply (fetch_each_answered up api_key (record_path Contacts)).
        intros j cid e Hj He.
        apply (Hup (length company_ids + j) cid e).
        - rewrite lookup_app_r by lia.
          by replace (length company_ids + j - length company_ids) with j by lia.
        - rewrite bool_decide_eq_false_2 by lia.
          by replace (n + (length company_ids + j))
            with (n + length company_ids + j) by lia. }
    reflexivity. }
  split; [done|]. intros Hnone. by rewrite Hctx, Hnone.
Qed.

Lemma deal_context_display_name_witness :
  deal_context example_upstream "pat-na1" example_deal 1
  = (display_name
       (answered example_upstream (record_path Companies) 1 [JStr "c1"])
       (JStr "Acme renewal"),
     1 + length [JStr "c1"] + length [JStr "p1"; JStr "p2"]).
Proof.
  apply (deal_context_display_name example_upstream "pat-na1" example_deal
           (JObj [("dealname", JStr "Acme renewal")]) (JStr "Acme renewal")
           (JObj [("companies", JObj [("results", JArr [JObj [("id", JStr "c1")]])]);
                  ("contacts",
                   JObj [("results",
                          JArr [JObj [("id", JStr "p1")]; JObj [("id", JStr "p2")]])])])
           [JStr "c1"] [JStr "p1"; JStr "p2"] 1); try reflexivity.
  intros [|[|[|j]]] cid e Hj H; try discriminate;
    injection Hj as <-; vm_compute in H; first [discriminate | by injection H as <-].
Defined.
